(** * tmus: the search filter and the session loop of [tmus/app.py]

    A shallow embedding of [search_library] and of the body of the
    [while True] loop of [main_ui], followed by the properties the
    specification states about them.

    Modelling conventions.
    - Python [int] is [Z]; Python [str] is [string], a sequence of 8-bit
      characters read as the code points 0..255.  [str.lower], [str.strip],
      the [in] operator on strings and [os.path.basename] are written out
      for that range.
    - A Python [dict] is an association list in insertion order; a
      well-formed dict has no repeated key ([dict_wf]).
    - The curses calls only draw; they are left out, and what a loop
      iteration reads from the terminal and from the VLC player is collected
      in one record of observations ([Obs]).  What the loop sends to the
      player is returned as a list of commands ([PlayerCmd]).
    - A curses call can fail ([curses.error], for a text that does not fit
      its window: the footer of line 202 in a terminal of 70 columns or
      less, the search line for a long query, the progress bar when the
      player reports a position beyond the length).  Such a failure ends the
      real session in the drawing part, before the key of that iteration is
      read.  The model describes the iterations whose drawing succeeds:
      its statements say what the loop does with the keys it reads and which
      states it reaches, not that the drawing of a given terminal succeeds.
    - A failing subscript ([KeyError], [IndexError]) ends the loop with
      [Raise]. *)

From Stdlib Require Import ZArith Lia ZifyBool Ascii String.
From stdpp Require Import base decidable option list strings.

Local Open Scope string_scope.
Local Open Scope list_scope.
Local Open Scope Z_scope.

#[local] Arguments String.append !_ _ / : simpl nomatch.

(** ** Python strings *)

(** [bool(s)] for a string: the empty string is false. *)
Definition str_truthy (s : string) : bool :=
  match s with
  | EmptyString => false
  | String _ _ => true
  end.

(** [c.lower()] for one character below code point 256: the ASCII capitals
    and the Latin-1 capitals (0xC0..0xDE without the multiplication sign
    0xD7) move up by 32. *)
Definition lower_char (c : ascii) : ascii :=
  let n := N_of_ascii c in
  if ((65 <=? n) && (n <=? 90))%N
     || ((192 <=? n) && (n <=? 222) && negb (n =? 215))%N
  then ascii_of_N (n + 32)
  else c.

(** [s.lower()] *)
Fixpoint lower (s : string) : string :=
  match s with
  | EmptyString => EmptyString
  | String c r => String (lower_char c) (lower r)
  end.

(** [hay.startswith(needle)] *)
Fixpoint startswith (needle hay : string) : bool :=
  match needle, hay with
  | EmptyString, _ => true
  | String _ _, EmptyString => false
  | String a n', String b h' => bool_decide (a = b) && startswith n' h'
  end.

(** [needle in hay] *)
Fixpoint str_in (needle hay : string) : bool :=
  startswith needle hay
  || match hay with
     | EmptyString => false
     | String _ h' => str_in needle h'
     end.

(** [p.rfind("/") + 1], as a number of characters to drop. *)
Fixpoint after_last_sep (p : string) : nat :=
  match p with
  | EmptyString => O
  | String c r =>
      if str_in "/" r then S (after_last_sep r)
      else if bool_decide (c = "/"%char) then 1%nat
      else O
  end.

Fixpoint str_drop (n : nat) (s : string) : string :=
  match n, s with
  | O, _ => s
  | S _, EmptyString => EmptyString
  | S n', String _ r => str_drop n' r
  end.

(** [os.path.basename(p)] of posixpath: [p[p.rfind("/") + 1:]]. *)
Definition basename (p : string) : string :=
  str_drop (after_last_sep p) p.

(** [c.isspace()] below code point 256. *)
Definition is_space (c : ascii) : bool :=
  let n := N_of_ascii c in
  (((9 <=? n) && (n <=? 13)) || ((28 <=? n) && (n <=? 32))
   || (n =? 133) || (n =? 160))%N.

(** [s.lstrip()] *)
Fixpoint lstrip (s : string) : string :=
  match s with
  | EmptyString => EmptyString
  | String c r => if is_space c then lstrip r else s
  end.

(** [s.rstrip()] *)
Fixpoint rstrip (s : string) : string :=
  match s with
  | EmptyString => EmptyString
  | String c r =>
      match rstrip r with
      | EmptyString => if is_space c then EmptyString else String c EmptyString
      | r' => String c r'
      end
  end.

(** [s.strip()] *)
Definition strip (s : string) : string := rstrip (lstrip s).

(** [s[:-1]] *)
Fixpoint drop_last (s : string) : string :=
  match s with
  | EmptyString => EmptyString
  | String c EmptyString => EmptyString
  | String c r => String c (drop_last r)
  end.

(** [chr(k)] for [0 <= k < 256]. *)
Definition chr (k : Z) : ascii := ascii_of_N (Z.to_N k).

(** ** Python dicts, in insertion order *)

(** The type of a dict with string keys. *)
Abbreviation dict V := (list (string * V)) (only parsing).

Section Dict.
Context {V : Type}.

Definition dict_keys (d : dict V) : list string := d.*1.

(** [d[k]]; [None] stands for [KeyError]. *)
Fixpoint dict_get (k : string) (d : dict V) : option V :=
  match d with
  | [] => None
  | (k', v) :: d' => if decide (k = k') then Some v else dict_get k d'
  end.

(** [d[k] = v]: an existing key keeps its place, a new one goes last. *)
Fixpoint dict_set (k : string) (v : V) (d : dict V) : dict V :=
  match d with
  | [] => [(k, v)]
  | (k', v') :: d' =>
      if decide (k = k') then (k', v) :: d' else (k', v') :: dict_set k v d'
  end.

(** The association lists that are dicts: no key twice. *)
Definition dict_wf (d : dict V) : Prop := NoDup (dict_keys d).
End Dict.

(** ** The track index *)

Record Album := { album_name : string; tracks : list string }.

(** The value an artist maps to. *)
Abbreviation Albums := (list Album) (only parsing).

(** artist -> albums, in order of discovery. *)
Abbreviation TrackIndex := (dict Albums) (only parsing).

(** Modelled from the spec: [flatten_album] of [tmus/music_scanner.py],
    which is not part of the sources at hand.  "Deterministic concatenation
    preserving album then intra-album order": the albums' track lists, one
    after the other. *)
Definition flatten_album (albums : Albums) : list string :=
  concat (tracks <$> albums).

(** ** [search_library] *)

(** The test of one loop iteration: [artist_matches or song_matches]. *)
Definition entry_matches (query_lower : string) (artist : string)
    (albums : Albums) : bool :=
  let artist_matches := str_in query_lower (lower artist) in
  let all_songs := flatten_album albums in
  let song_matches :=
    existsb (fun song => str_in query_lower (lower (basename song))) all_songs in
  artist_matches || song_matches.

(** The body of [for artist, albums in library.items()], on the pair
    [(filtered_library, filtered_artists)]. *)
Definition search_step (query_lower : string)
    (acc : TrackIndex * list string) (item : string * Albums)
    : TrackIndex * list string :=
  let '(filtered_library, filtered_artists) := acc in
  let '(artist, albums) := item in
  if entry_matches query_lower artist albums
  then (dict_set artist albums filtered_library, filtered_artists ++ [artist])
  else (filtered_library, filtered_artists).

Definition search_library (library : TrackIndex) (query : string)
    : TrackIndex * list string :=
  if negb (str_truthy query) then (library, dict_keys library)
  else
    let query_lower := lower query in
    fold_left (search_step query_lower) library ([], []).

(** ** Python sequences *)

Section PySeq.
Context {A : Type}.

(** [len(l)] *)
Definition len (l : list A) : Z := Z.of_nat (length l).

(** How a slice bound is brought into [0 .. len(l)]: a negative bound
    counts from the end. *)
Definition slice_bound (n i : Z) : Z :=
  if i <? 0 then Z.max 0 (i + n) else Z.min i n.

(** [l[start:stop]] *)
Definition py_slice (l : list A) (start stop : Z) : list A :=
  let a := slice_bound (len l) start in
  let b := slice_bound (len l) stop in
  take (Z.to_nat (b - a)) (drop (Z.to_nat a) l).

(** [l[i]]; a negative index counts from the end, [None] stands for
    [IndexError]. *)
Definition py_index (l : list A) (i : Z) : option A :=
  if 0 <=? i then l !! Z.to_nat i
  else if 0 <=? i + len l then l !! Z.to_nat (i + len l)
  else None.

(** [bool(l)] *)
Definition list_truthy (l : list A) : bool :=
  match l with
  | [] => false
  | _ :: _ => true
  end.
End PySeq.

(** ** The session state: the local variables of [main_ui] *)

Definition PADDING : Z := 2.

(** The arguments of [curses.newwin]. *)
Record Window := {
  nlines : Z;
  ncols : Z;
  begin_y : Z;
  begin_x : Z }.

Record Layout := {
  height : Z;
  width : Z;
  content_height : Z;
  content_width : Z;
  artist_win_width : Z;
  songs_win_width : Z;
  max_rows : Z;
  artist_win : Window;
  songs_win : Window }.

Record Cursors := {
  selected_artist : Z;
  artist_offset : Z;
  selected_song : Z;
  song_offset : Z }.

Record State := {
  cursors : Cursors;
  layout : Layout;
  curr_song : option string;
  curr_artist : option string;
  playing : bool;
  repeat : bool;
  search_active : bool;
  search_query : string;
  filtered_library : TrackIndex;
  filtered_artists : list string;
  volume : Z }.

(** Lines 150-158 and 170-177: everything derived from the terminal size. *)
Definition compute_layout (h w : Z) : Layout :=
  let content_height := h - 10 in
  let content_width := w - 2 * PADDING in
  let artist_win_width := content_width / 2 - 1 in
  let songs_win_width := content_width - artist_win_width - 1 in
  {| height := h;
     width := w;
     content_height := content_height;
     content_width := content_width;
     artist_win_width := artist_win_width;
     songs_win_width := songs_win_width;
     max_rows := content_height - 2;
     artist_win := {| nlines := content_height; ncols := artist_win_width;
                      begin_y := 3; begin_x := PADDING |};
     songs_win := {| nlines := content_height; ncols := songs_win_width;
                     begin_y := 3; begin_x := PADDING + artist_win_width + 1 |} |}.

Definition top : Cursors :=
  {| selected_artist := 0; artist_offset := 0;
     selected_song := 0; song_offset := 0 |}.

(** Assignments to the state, one function per group of variables the
    source assigns together. *)
Definition with_cursors (c : Cursors) (s : State) : State :=
  {| cursors := c; layout := layout s; curr_song := curr_song s;
     curr_artist := curr_artist s; playing := playing s; repeat := repeat s;
     search_active := search_active s; search_query := search_query s;
     filtered_library := filtered_library s;
     filtered_artists := filtered_artists s; volume := volume s |}.

Definition with_layout (l : Layout) (s : State) : State :=
  {| cursors := cursors s; layout := l; curr_song := curr_song s;
     curr_artist := curr_artist s; playing := playing s; repeat := repeat s;
     search_active := search_active s; search_query := search_query s;
     filtered_library := filtered_library s;
     filtered_artists := filtered_artists s; volume := volume s |}.

Definition with_search_active (b : bool) (s : State) : State :=
  {| cursors := cursors s; layout := layout s; curr_song := curr_song s;
     curr_artist := curr_artist s; playing := playing s; repeat := repeat s;
     search_active := b; search_query := search_query s;
     filtered_library := filtered_library s;
     filtered_artists := filtered_artists s; volume := volume s |}.

Definition with_search_query (q : string) (s : State) : State :=
  {| cursors := cursors s; layout := layout s; curr_song := curr_song s;
     curr_artist := curr_artist s; playing := playing s; repeat := repeat s;
     search_active := search_active s; search_query := q;
     filtered_library := filtered_library s;
     filtered_artists := filtered_artists s; volume := volume s |}.

Definition with_filtered (r : TrackIndex * list string) (s : State) : State :=
  {| cursors := cursors s; layout := layout s; curr_song := curr_song s;
     curr_artist := curr_artist s; playing := playing s; repeat := repeat s;
     search_active := search_active s; search_query := search_query s;
     filtered_library := r.1; filtered_artists := r.2; volume := volume s |}.

Definition with_now_playing (song artist : string) (s : State) : State :=
  {| cursors := cursors s; layout := layout s; curr_song := Some song;
     curr_artist := Some artist; playing := true; repeat := repeat s;
     search_active := search_active s; search_query := search_query s;
     filtered_library := filtered_library s;
     filtered_artists := filtered_artists s; volume := volume s |}.

Definition with_repeat (b : bool) (s : State) : State :=
  {| cursors := cursors s; layout := layout s; curr_song := curr_song s;
     curr_artist := curr_artist s; playing := playing s; repeat := b;
     search_active := search_active s; search_query := search_query s;
     filtered_library := filtered_library s;
     filtered_artists := filtered_artists s; volume := volume s |}.

Definition with_volume (v : Z) (s : State) : State :=
  {| cursors := cursors s; layout := layout s; curr_song := curr_song s;
     curr_artist := curr_artist s; playing := playing s; repeat := repeat s;
     search_active := search_active s; search_query := search_query s;
     filtered_library := filtered_library s;
     filtered_artists := filtered_artists s; volume := v |}.

(** Lines 121-158: the state before the first iteration, for a terminal of
    [h] lines and [w] columns. *)
Definition init_state (library : TrackIndex) (h w : Z) : State :=
  {| cursors := top; layout := compute_layout h w;
     curr_song := None; curr_artist := None;
     playing := false; repeat := false;
     search_active := false; search_query := "";
     filtered_library := library; filtered_artists := dict_keys library;
     volume := 50 |}.

(** ** One iteration of the [while True] loop *)

(** What one iteration reads from outside: the terminal size
    ([stdscr.getmaxyx()], line 164), whether the player reports
    [vlc.State.Ended] (line 268), the key ([stdscr.getch()], line 307), and
    [player.get_time()] and [player.get_length()] in milliseconds as the
    seek branches read them (lines 395-412). *)
Record Obs := {
  new_height : Z;
  new_width : Z;
  player_ended : bool;
  key : Z;
  player_time : Z;
  player_length : Z }.

(** The calls on the VLC player that change it. *)
Inductive PlayerCmd :=
  | AudioSetVolume (v : Z)
  | SetTime (ms : Z)
  | SetMedia (path : string)
  | PlayerPlay
  | PlayerPause
  | PlayerStop.

(** How an iteration ends: at the bottom of the loop or at a [continue],
    at [break], or with an exception. *)
Inductive Step :=
  | Continue (s : State) (cmds : list PlayerCmd)
  | Break (s : State) (cmds : list PlayerCmd)
  | Raise (cmds : list PlayerCmd).

(** [ord(c)] *)
Definition ord (c : ascii) : Z := Z.of_N (N_of_ascii c).

(** The key codes of ncurses. *)
Definition KEY_DOWN : Z := 258.
Definition KEY_UP : Z := 259.
Definition KEY_LEFT : Z := 260.
Definition KEY_RIGHT : Z := 261.
Definition KEY_BACKSPACE : Z := 263.
Definition KEY_ENTER : Z := 343.

Definition is_escape (k : Z) : bool := k =? 27.
Definition is_enter (k : Z) : bool :=
  (k =? KEY_ENTER) || (k =? 10) || (k =? 13).
Definition is_backspace (k : Z) : bool :=
  (k =? KEY_BACKSPACE) || (k =? 8) || (k =? 127).
Definition is_printable (k : Z) : bool := (32 <=? k) && (k <=? 126).

(** [bool(x)] for a variable that is [None] or a string. *)
Definition opt_truthy (x : option string) : bool :=
  match x with
  | Some s => str_truthy s
  | None => false
  end.

(** Lines 164-178. *)
Definition handle_resize (o : Obs) (s : State) : State :=
  if bool_decide
       ((new_height o, new_width o) ≠ (height (layout s), width (layout s)))
  then with_layout (compute_layout (new_height o) (new_width o))
         (with_cursors top s)
  else s.

(** [filtered_artists if search_query else artists] and
    [filtered_library if search_query else library]. *)
Definition current_artists (library : TrackIndex) (s : State) : list string :=
  if str_truthy (search_query s) then filtered_artists s
  else dict_keys library.

Definition current_library (library : TrackIndex) (s : State) : TrackIndex :=
  if str_truthy (search_query s) then filtered_library s else library.

(** The three lists the drawing code leaves behind for the key handlers. *)
Record Drawn := {
  visible_artists : list string;
  all_songs_by_artist : list string;
  visible_songs : list string }.

(** Lines 216-242. *)
Definition draw_lists (library : TrackIndex) (s : State) : option Drawn :=
  let c := cursors s in
  let rows := max_rows (layout s) in
  let visible_artists :=
    py_slice (current_artists library s)
      (artist_offset c) (artist_offset c + rows) in
  if list_truthy visible_artists
     && (selected_artist c <? len visible_artists)
  then
    artist ← py_index visible_artists (selected_artist c);
    current_artists_albums ← dict_get artist (current_library library s);
    let all_songs_by_artist := flatten_album current_artists_albums in
    Some {| visible_artists := visible_artists;
            all_songs_by_artist := all_songs_by_artist;
            visible_songs :=
              py_slice all_songs_by_artist
                (song_offset c) (song_offset c + rows) |}
  else
    Some {| visible_artists := visible_artists;
            all_songs_by_artist := [];
            visible_songs := [] |}.

(** Lines 248-272: the repeat logic of the now-playing section. *)
Definition now_playing (o : Obs) (s : State) : list PlayerCmd :=
  match curr_song s with
  | Some song =>
      if str_truthy song && opt_truthy (curr_artist s)
      then if repeat s && player_ended o
           then [PlayerStop; SetMedia song; PlayerPlay]
           else []
      else []
  | None => []
  end.

(** The state the Escape key and the [c] key restore (lines 312-319 and
    344-350). *)
Definition clear_filter (library : TrackIndex) (s : State) : State :=
  with_cursors top
    (with_filtered (library, dict_keys library) (with_search_query "" s)).

(** Lines 310-335: the keys while [search_active]. *)
Definition handle_search_key (library : TrackIndex) (o : Obs) (s : State)
    : State :=
  let k := key o in
  if is_escape k then
    clear_filter library (with_search_active false s)
  else if is_enter k then
    let s := with_search_active false s in
    if str_truthy (strip (search_query s))
    then with_cursors top
           (with_filtered (search_library library (strip (search_query s))) s)
    else s
  else if is_backspace k then
    if str_truthy (search_query s)
    then with_search_query (drop_last (search_query s)) s
    else s
  else if is_printable k then
    with_search_query (search_query s +:+ String (chr k) "") s
  else s.

(** The cursor and offset of one list after Up or Left (lines 357-360 and
    370-373). *)
Definition move_back (selected offset : Z) : Z * Z :=
  if 0 <? selected then (selected - 1, offset)
  else if 0 <? selected + offset then (selected, offset - 1)
  else (selected, offset).

(** The cursor and offset of one list of [n] items after Down or Right
    (lines 365-368 and 375-378). *)
Definition move_forward (rows n selected offset : Z) : Z * Z :=
  if selected <? Z.min (rows - 1) (n - 1) then (selected + 1, offset)
  else if selected + offset <? n - 1 then (selected, offset + 1)
  else (selected, offset).

(** Lines 337-426: the keys while not [search_active].  [d] holds the lists
    drawn earlier in the same iteration. *)
Definition handle_normal_key (library : TrackIndex) (o : Obs) (d : Drawn)
    (s : State) : Step :=
  let k := key o in
  if k =? ord "/" then Continue (with_search_active true s) []
  else
    let s :=
      if (k =? ord "c") && str_truthy (search_query s)
      then clear_filter library s
      else s in
    let c := cursors s in
    let rows := max_rows (layout s) in
    if k =? KEY_UP then
      let '(sel, off) := move_back (selected_artist c) (artist_offset c) in
      Continue
        (with_cursors {| selected_artist := sel; artist_offset := off;
                         selected_song := 0; song_offset := 0 |} s) []
    else if k =? KEY_DOWN then
      let '(sel, off) :=
        move_forward rows (len (current_artists library s))
          (selected_artist c) (artist_offset c) in
      Continue
        (with_cursors {| selected_artist := sel; artist_offset := off;
                         selected_song := 0; song_offset := 0 |} s) []
    else if k =? KEY_LEFT then
      let '(sel, off) := move_back (selected_song c) (song_offset c) in
      Continue
        (with_cursors {| selected_artist := selected_artist c;
                         artist_offset := artist_offset c;
                         selected_song := sel; song_offset := off |} s) []
    else if k =? KEY_RIGHT then
      let '(sel, off) :=
        move_forward rows (len (all_songs_by_artist d))
          (selected_song c) (song_offset c) in
      Continue
        (with_cursors {| selected_artist := selected_artist c;
                         artist_offset := artist_offset c;
                         selected_song := sel; song_offset := off |} s) []
    else if is_enter k then
      if list_truthy (visible_songs d)
         && (selected_song c <? len (visible_songs d))
      then
        match py_index (visible_songs d) (selected_song c) with
        | None => Raise []
        | Some song =>
            let artist :=
              if list_truthy (visible_artists d)
                 && (selected_artist c <? len (visible_artists d))
              then py_index (visible_artists d) (selected_artist c)
              else Some "Unknown Artist" in
            match artist with
            | None => Raise []
            | Some artist =>
                Continue (with_now_playing song artist s)
                  [SetMedia song; PlayerPlay]
            end
        end
      else Continue s []
    else if k =? ord "=" then
      let v := Z.min 100 (volume s + 5) in
      Continue (with_volume v s) [AudioSetVolume v]
    else if k =? ord "-" then
      let v := Z.max 0 (volume s - 5) in
      Continue (with_volume v s) [AudioSetVolume v]
    else if k =? ord "," then
      if opt_truthy (curr_song s)
      then Continue s [SetTime (Z.max 0 (player_time o - 5000))]
      else Continue s []
    else if k =? ord "." then
      if opt_truthy (curr_song s)
      then Continue s [SetTime (Z.min (player_length o) (player_time o + 5000))]
      else Continue s []
    else if k =? ord "<" then
      if opt_truthy (curr_song s)
      then Continue s [SetTime (Z.max 0 (player_time o - 10000))]
      else Continue s []
    else if k =? ord ">" then
      if opt_truthy (curr_song s)
      then Continue s [SetTime (Z.min (player_length o) (player_time o + 10000))]
      else Continue s []
    else if k =? ord "p" then Continue s [PlayerPause]
    else if k =? ord "r" then Continue (with_repeat (negb (repeat s)) s) []
    else if k =? ord "q" then Break s []
    else Continue s [].

(** The commands of the drawing part go before those of the key. *)
Definition after (cmds : list PlayerCmd) (r : Step) : Step :=
  match r with
  | Continue s c => Continue s (cmds ++ c)
  | Break s c => Break s (cmds ++ c)
  | Raise c => Raise (cmds ++ c)
  end.

(** Lines 161-426: one iteration. *)
Definition tick (library : TrackIndex) (o : Obs) (s : State) : Step :=
  let s := handle_resize o s in
  match draw_lists library s with
  | None => Raise []
  | Some d =>
      let cmds := now_playing o s in
      if search_active s
      then Continue (handle_search_key library o s) cmds
      else after cmds (handle_normal_key library o d s)
  end.

(** ** The loop, run on a finite sequence of observations *)

Inductive Outcome :=
  | Running (s : State)
  | Quit (s : State)
  | Crashed.

Fixpoint main_loop (library : TrackIndex) (obs : list Obs) (s : State)
    : list PlayerCmd * Outcome :=
  match obs with
  | [] => ([], Running s)
  | o :: rest =>
      match tick library o s with
      | Continue s' cmds =>
          let r := main_loop library rest s' in (cmds ++ r.1, r.2)
      | Break s' cmds => (cmds, Quit s')
      | Raise cmds => (cmds, Crashed)
      end
  end.

(** [main_ui] from line 121 on, for a terminal of [h] lines and [w] columns
    at the start: [None] is the early return on an empty library (lines
    136-140); otherwise the volume is set to 50 and the loop runs. *)
Definition main_ui (library : TrackIndex) (h w : Z) (obs : list Obs)
    : option (list PlayerCmd * Outcome) :=
  if list_truthy library then
    let r := main_loop library obs (init_state library h w) in
    Some (AudioSetVolume 50 :: r.1, r.2)
  else None.

(** ** The vocabulary of the specification *)

(** [a] and [b] are equal up to letter case. *)
Definition eq_ignoring_case (a b : string) : Prop := lower a = lower b.

(** "Case-insensitive substring": some contiguous piece of [s] equals [q]
    up to letter case. *)
Definition ci_substring (q s : string) : Prop :=
  ∃ pre mid post, s = pre +:+ mid +:+ post ∧ eq_ignoring_case mid q.

(** The query matches the artist: its name, or the basename of one of its
    flattened tracks. *)
Definition artist_matches_query (q artist : string) (albums : Albums) : Prop :=
  ci_substring q artist
  ∨ ∃ song, song ∈ flatten_album albums ∧ ci_substring q (basename song).

(** "Empty or whitespace-only". *)
Fixpoint whitespace_only (s : string) : Prop :=
  match s with
  | EmptyString => True
  | String c r => is_space c = true ∧ whitespace_only r
  end.

(** [x] clamped to the interval [[lo, hi]]. *)
Definition clamp (lo hi x : Z) : Z := Z.max lo (Z.min hi x).

(** The four directional keys. *)
Definition is_directional (k : Z) : bool :=
  (k =? KEY_UP) || (k =? KEY_DOWN) || (k =? KEY_LEFT) || (k =? KEY_RIGHT).

(** The entries of the index that [search_library] keeps for a lowered
    query. *)
Definition kept (query_lower : string) (item : string * Albums) : Prop :=
  entry_matches query_lower item.1 item.2 = true.

#[global] Instance kept_dec query_lower item : Decision (kept query_lower item).
Proof. unfold kept. apply _. Defined.

(** ** Invariants of the loop *)

(** What every state the loop reaches satisfies, and what keeps the
    subscripts of the drawing code in range: cursors and offsets are not
    negative and the filtered artist list is the key list of the filtered
    index. *)
Definition session_ok (s : State) : Prop :=
  0 <= selected_artist (cursors s) ∧ 0 <= artist_offset (cursors s)
  ∧ 0 <= selected_song (cursors s) ∧ 0 <= song_offset (cursors s)
  ∧ filtered_artists s = dict_keys (filtered_library s).

(** The result of an iteration is a state that satisfies the invariant,
    never an exception. *)
Definition step_ok (r : Step) : Prop :=
  match r with
  | Continue s _ | Break s _ => session_ok s
  | Raise _ => False
  end.

(** The windowed-list bound for one list of [n] items shown in [rows]
    rows: the cursor stays inside the page, the offset inside what the page
    leaves over. *)
Definition window_ok (rows n selected offset : Z) : Prop :=
  let page := Z.max 0 (Z.min (rows - 1) (n - 1)) in
  0 <= selected <= page ∧ 0 <= offset <= n - 1 - page.

(** The songs of the artist under the cursor, [None] when the cursor is
    outside the artist list or the artist is no key of the index. *)
Definition songs_under_cursor (library : TrackIndex) (s : State)
    : option (list string) :=
  let c := cursors s in
  artist ← py_index (current_artists library s)
              (selected_artist c + artist_offset c);
  albums ← dict_get artist (current_library library s);
  Some (flatten_album albums).

(** The navigation invariant while browsing the unfiltered library. *)
Definition nav_ok (library : TrackIndex) (s : State) : Prop :=
  let c := cursors s in
  let rows := max_rows (layout s) in
  session_ok s ∧ search_active s = false ∧ search_query s = ""
  ∧ window_ok rows (len (dict_keys library))
      (selected_artist c) (artist_offset c)
  ∧ ∃ songs, songs_under_cursor library s = Some songs
      ∧ window_ok rows (len songs) (selected_song c) (song_offset c).

(** A set-volume command carries a level in 0..100; the other commands
    are not concerned. *)
Definition volume_cmd_ok (c : PlayerCmd) : Prop :=
  match c with
  | AudioSetVolume v => 0 <= v <= 100
  | _ => True
  end.

(** The volume of the state a run ends in is in 0..100. *)
Definition outcome_volume_ok (out : Outcome) : Prop :=
  match out with
  | Running s | Quit s => 0 <= volume s <= 100
  | Crashed => True
  end.

(** The same for the result of one iteration, with its commands. *)
Definition step_volume_ok (r : Step) : Prop :=
  match r with
  | Continue s c | Break s c => 0 <= volume s <= 100 ∧ Forall volume_cmd_ok c
  | Raise c => Forall volume_cmd_ok c
  end.

(** ** Sample data: a library after the scenario of the specification *)

Definition abba_albums : Albums :=
  [ {| album_name := "Arrival";
       tracks := ["/music/Abba/Arrival/a.mp3"; "/music/Abba/Arrival/b.mp3"] |} ].

Definition bjork_albums : Albums :=
  [ {| album_name := "Debut"; tracks := ["/music/Bjork/Debut/Human.mp3"] |} ].

Definition sample_library : TrackIndex :=
  [ ("Abba", abba_albums); ("Bjork", bjork_albums) ].

Definition sample_state : State := init_state sample_library 24 80.

Definition press (k : Z) : Obs :=
  {| new_height := 24; new_width := 80; player_ended := false;
     key := k; player_time := 0; player_length := 0 |}.

(** A state with the artist cursor on the second artist, drawn for a
    terminal of 30 lines and 100 columns. *)
Definition scrolled_state : State :=
  with_cursors {| selected_artist := 1; artist_offset := 0;
                  selected_song := 0; song_offset := 0 |}
    (with_layout (compute_layout 30 100) sample_state).

(** Search mode with the query [bjork] typed. *)
Definition searching_state : State :=
  with_search_query "bjork" (with_search_active true sample_state).

(** The first track of Abba is the current song. *)
Definition playing_state : State :=
  with_now_playing "/music/Abba/Arrival/a.mp3" "Abba" sample_state.

(** A key pressed while the player reports position [t] and length [d]. *)
Definition press_at (k t d : Z) : Obs :=
  {| new_height := 24; new_width := 80; player_ended := false;
     key := k; player_time := t; player_length := d |}.

(** A key pressed in a terminal of 12 lines. *)
Definition press_small (k : Z) : Obs :=
  {| new_height := 12; new_width := 80; player_ended := false;
     key := k; player_time := 0; player_length := 0 |}.

(** ** What the loop draws in the two list windows

    The [addstr] calls on [artist_win] and [songs_win], as the list of
    their arguments. *)

Inductive Attr :=
  | A_NORMAL
  | A_STANDOUT.

#[global] Instance Attr_eq_dec : EqDecision Attr.
Proof. solve_decision. Defined.

(** [win.addstr(y, x, text, attr)] *)
Record AddStr := {
  at_y : Z;
  at_x : Z;
  text : string;
  attr : Attr }.

(** Lines 219-225: the loop over [range(len(visible_artists))] from index
    [i] on, with its [break] at [i >= max_rows]. *)
Fixpoint artist_rows_from (i rows selected : Z) (visible : list string)
    : list AddStr :=
  match visible with
  | [] => []
  | artist :: rest =>
      if rows <=? i then []
      else
        {| at_y := i + 1; at_x := 2; text := artist;
           attr := if selected =? i then A_STANDOUT else A_NORMAL |}
        :: artist_rows_from (i + 1) rows selected rest
  end.

(** Lines 234-239: the loop over [enumerate(visible_songs)] from index [i]
    on. *)
Fixpoint song_rows_from (i selected : Z) (visible : list string)
    : list AddStr :=
  match visible with
  | [] => []
  | song :: rest =>
      {| at_y := i + 1; at_x := 2; text := basename song;
         attr := if i =? selected then A_STANDOUT else A_NORMAL |}
      :: song_rows_from (i + 1) selected rest
  end.

Definition artist_rows (d : Drawn) (s : State) : list AddStr :=
  artist_rows_from 0 (max_rows (layout s)) (selected_artist (cursors s))
    (visible_artists d).

Definition song_rows (d : Drawn) (s : State) : list AddStr :=
  song_rows_from 0 (selected_song (cursors s)) (visible_songs d).

(** Lines 40-46: [draw_list], from index [i] of [enumerate(visible)] on. *)
Fixpoint draw_list_from (i offset selected : Z) (visible : list string)
    : list AddStr :=
  match visible with
  | [] => []
  | item :: rest =>
      {| at_y := i + 1; at_x := 2; text := item;
         attr := if i + offset =? selected then A_STANDOUT else A_NORMAL |}
      :: draw_list_from (i + 1) offset selected rest
  end.

Definition draw_list (items : list string) (offset selected max_rows : Z)
    : list AddStr :=
  draw_list_from 0 offset selected (py_slice items offset (offset + max_rows)).

(** The texts of the highlighted rows. *)
Definition highlighted (rows : list AddStr) : list string :=
  text <$> filter (λ r, attr r = A_STANDOUT) rows.

(** ** Further vocabulary for the properties of the loop *)

(** Every character of the string is printable ASCII (32..126). *)
Fixpoint all_printable (s : string) : Prop :=
  match s with
  | EmptyString => True
  | String c r => 32 <= ord c <= 126 ∧ all_printable r
  end.

(** The playing flag is set exactly when a current song is recorded, and
    a current song is recorded together with a current artist. *)
Definition track_ok (s : State) : Prop :=
  (playing s = true ↔ is_Some (curr_song s))
  ∧ (is_Some (curr_song s) ↔ is_Some (curr_artist s)).

(** The position in the whole list that a cursor and an offset stand for. *)
Definition artist_position (s : State) : Z :=
  selected_artist (cursors s) + artist_offset (cursors s).

Definition song_position (s : State) : Z :=
  selected_song (cursors s) + song_offset (cursors s).

(** The state of a run that is still looping. *)
Definition running_state (r : list PlayerCmd * Outcome) : option State :=
  match r.2 with
  | Running s => Some s
  | _ => None
  end.

(** The state a run is in or has quit from. *)
Definition last_state (r : list PlayerCmd * Outcome) : option State :=
  match r.2 with
  | Running s | Quit s => Some s
  | Crashed => None
  end.

(** A key pressed in a terminal of [h] lines and [w] columns, with an idle
    player. *)
Definition press_in (h w k : Z) : Obs :=
  {| new_height := h; new_width := w; player_ended := false;
     key := k; player_time := 0; player_length := 0 |}.

(** The keys of the volume, seek, pause and repeat branches. *)
Definition is_playback_key (k : Z) : bool :=
  (k =? ord "=") || (k =? ord "-") || (k =? ord ",") || (k =? ord ".")
  || (k =? ord "<") || (k =? ord ">") || (k =? ord "p") || (k =? ord "r").

(** A library whose first artist has fewer songs than the second. *)
Definition short_then_long : TrackIndex :=
  [ ("A", [ {| album_name := "One"; tracks := ["/m/A/One/a1.mp3"] |} ]);
    ("B", [ {| album_name := "Two";
               tracks := ["/m/B/Two/b1.mp3"; "/m/B/Two/b2.mp3";
                          "/m/B/Two/b3.mp3"] |} ]) ].

(** The state after filtering [short_then_long] for [b], moving the song
    cursor to the third song of B, and emptying and confirming the query:
    the whole library is shown again, the filtered view and the cursors are
    those of the filter. *)
Definition stale_state : State :=
  with_cursors {| selected_artist := 0; artist_offset := 0;
                  selected_song := 2; song_offset := 0 |}
    (with_filtered (search_library short_then_long "b")
       (init_state short_then_long 24 80)).

(** * Properties *)

(** ** Strings *)

Lemma lower_app (a b : string) : lower (a +:+ b) = lower a +:+ lower b.
Proof. induction a as [|x a IH]; simpl; [done | by rewrite IH]. Qed.

(** A split of [lower s] comes from a split of [s]. *)
Lemma lower_app_inv (s x y : string) :
  lower s = x +:+ y → ∃ a b, s = a +:+ b ∧ lower a = x ∧ lower b = y.
Proof.
  revert s. induction x as [|c x IH]; intros s H; simpl in H.
  - by exists "", s.
  - destruct s as [|d s]; simpl in H; [done|].
    injection H as Hc Hs.
    destruct (IH s Hs) as (a & b & -> & Ha & Hb).
    exists (String d a), b. simpl. by rewrite Hc, Ha, Hb.
Qed.

Lemma startswith_spec (n h : string) :
  startswith n h = true ↔ ∃ post, h = n +:+ post.
Proof.
  revert h. induction n as [|a n IH]; intros h; simpl.
  - split; [intros _; by exists h | done].
  - destruct h as [|b h].
    + split; [done | intros [post Hp]; done].
    + rewrite andb_true_iff, bool_decide_eq_true, IH. split.
      * intros [-> [post ->]]. by exists post.
      * intros [post Hp]. injection Hp as -> ->. eauto.
Qed.

Lemma str_in_spec (n h : string) :
  str_in n h = true ↔ ∃ pre post, h = pre +:+ n +:+ post.
Proof.
  induction h as [|b h IH]; simpl.
  - rewrite orb_false_r, startswith_spec. split.
    + intros [post Hp]. by exists "", post.
    + intros (pre & post & Hp). destruct pre; [by exists post | done].
  - rewrite orb_true_iff, startswith_spec, IH. split.
    + intros [[post Hp] | (pre & post & ->)].
      * by exists "", post.
      * by exists (String b pre), post.
    + intros (pre & post & Hp). destruct pre as [|c pre]; simpl in Hp.
      * left. by exists post.
      * right. injection Hp as -> ->. by exists pre, post.
Qed.

(** The test [query.lower() in s.lower()] of the source decides
    "case-insensitive substring". *)
Lemma str_in_lower_spec (q s : string) :
  str_in (lower q) (lower s) = true ↔ ci_substring q s.
Proof.
  rewrite str_in_spec. unfold ci_substring, eq_ignoring_case. split.
  - intros (x & y & H).
    destruct (lower_app_inv _ _ _ H) as (pre & rest & -> & _ & Hr).
    destruct (lower_app_inv _ _ _ Hr) as (mid & post & -> & Hm & _).
    by exists pre, mid, post.
  - intros (pre & mid & post & -> & Hm).
    exists (lower pre), (lower post). by rewrite !lower_app, Hm.
Qed.

(** ** Dicts *)

Section DictFacts.
Context {V : Type}.
Implicit Types (d : dict V) (k : string) (v : V).

Lemma dict_get_Some_elem d k v : dict_get k d = Some v → (k, v) ∈ d.
Proof.
  induction d as [|[k' v'] d IH]; simpl; [done|].
  destruct (decide (k = k')) as [->|].
  - intros [= ->]. left.
  - intros H. right. auto.
Qed.

Lemma dict_get_None d k : dict_get k d = None ↔ k ∉ dict_keys d.
Proof.
  unfold dict_keys. induction d as [|[k' v'] d IH]; simpl.
  - split; [intros _; apply not_elem_of_nil | done].
  - rewrite not_elem_of_cons.
    destruct (decide (k = k')) as [->|Hne].
    + split; [discriminate | by intros [? _]].
    + rewrite IH. tauto.
Qed.

Lemma dict_get_of_elem d k v : dict_wf d → (k, v) ∈ d → dict_get k d = Some v.
Proof.
  unfold dict_wf, dict_keys.
  induction d as [|[k' v'] d IH]; simpl; intros Hnd Hin.
  - by apply elem_of_nil in Hin.
  - apply NoDup_cons in Hnd as [Hk' Hnd].
    apply elem_of_cons in Hin as [[= -> ->]|Hin].
    + by rewrite decide_True.
    + destruct (decide (k = k')) as [->|]; [|by apply IH].
      destruct Hk'. apply list_elem_of_fmap. by exists (k', v).
Qed.

Lemma dict_get_is_Some d k : is_Some (dict_get k d) ↔ k ∈ dict_keys d.
Proof.
  rewrite <-not_eq_None_Some, dict_get_None.
  destruct (decide (k ∈ dict_keys d)); tauto.
Qed.

Lemma dict_set_fresh d k v : k ∉ dict_keys d → dict_set k v d = d ++ [(k, v)].
Proof.
  unfold dict_keys. induction d as [|[k' v'] d IH]; simpl; [done|].
  rewrite not_elem_of_cons. intros [Hne Hk].
  rewrite decide_False by done. by rewrite IH.
Qed.

Lemma dict_keys_app d1 d2 : dict_keys (d1 ++ d2) = dict_keys d1 ++ dict_keys d2.
Proof. unfold dict_keys. apply fmap_app. Qed.
End DictFacts.

(** ** The search filter *)

(** The loop of [search_library] is a filter: from an accumulator whose
    keys are disjoint from those still to come, it appends the kept entries
    to the index and their names to the list. *)
Lemma search_fold (q : string) (l : TrackIndex) (fl : TrackIndex)
    (fa : list string) :
  NoDup (dict_keys fl ++ dict_keys l) →
  fold_left (search_step q) l (fl, fa)
  = (fl ++ filter (kept q) l, fa ++ dict_keys (filter (kept q) l)).
Proof.
  revert fl fa. induction l as [|[artist albums] l IH]; intros fl fa Hnd.
  - simpl. by rewrite !app_nil_r.
  - cbn [fold_left search_step]. simpl in Hnd.
    destruct (decide (kept q (artist, albums))) as [Hk|Hk].
    + rewrite filter_cons_True by done.
      unfold kept in Hk. cbn [fst snd] in Hk. rewrite Hk.
      rewrite dict_set_fresh.
      2:{ apply NoDup_app in Hnd as (_ & Hd & _). intros Hin.
          apply (Hd _ Hin). left. }
      rewrite IH.
      * simpl. by rewrite <-!app_assoc.
      * rewrite dict_keys_app. simpl. by rewrite <-app_assoc.
    + rewrite filter_cons_False by done.
      unfold kept in Hk. cbn [fst snd] in Hk.
      apply not_true_is_false in Hk. rewrite Hk.
      apply IH.
      apply NoDup_app in Hnd as (H1 & H2 & H3).
      apply NoDup_cons in H3 as [_ H3].
      apply NoDup_app. split_and!; [done| |done].
      intros x Hx Hx'. apply (H2 x Hx). by right.
Qed.

(** [search_library] on a non-empty query keeps exactly the entries whose
    test succeeds, in their order. *)
Lemma search_library_filter (library : TrackIndex) (query : string) :
  dict_wf library → query ≠ "" →
  search_library library query
  = (filter (kept (lower query)) library,
     dict_keys (filter (kept (lower query)) library)).
Proof.
  intros Hwf Hq. unfold search_library.
  destruct query; [done|]. cbn [str_truthy negb].
  by rewrite search_fold.
Qed.

(** The test of the source decides the matching relation of the
    specification. *)
Lemma entry_matches_spec (q artist : string) (albums : Albums) :
  entry_matches (lower q) artist albums = true
  ↔ artist_matches_query q artist albums.
Proof.
  unfold entry_matches, artist_matches_query.
  rewrite orb_true_iff, str_in_lower_spec, existsb_exists.
  setoid_rewrite str_in_lower_spec. setoid_rewrite <-list_elem_of_In. done.
Qed.

Lemma filter_keys_sublist (q : string) (library : TrackIndex) :
  dict_keys (filter (kept q) library) `sublist_of` dict_keys library.
Proof. unfold dict_keys. apply fmap_sublist, sublist_filter. Qed.

Lemma filter_wf (q : string) (library : TrackIndex) :
  dict_wf library → dict_wf (filter (kept q) library).
Proof.
  unfold dict_wf. intros H.
  eapply sublist_NoDup; [done | apply filter_keys_sublist].
Qed.

Lemma elem_of_filtered_keys (q : string) (library : TrackIndex) (artist : string) :
  dict_wf library →
  artist ∈ dict_keys (filter (kept q) library)
  ↔ ∃ albums, dict_get artist library = Some albums
      ∧ entry_matches q artist albums = true.
Proof.
  intros Hwf. unfold dict_keys. rewrite list_elem_of_fmap. split.
  - intros ([a albums] & -> & Hin).
    apply list_elem_of_filter in Hin as [Hk Hin].
    exists albums. split; [by apply dict_get_of_elem | done].
  - intros (albums & Hget & Hm). exists (artist, albums). split; [done|].
    apply list_elem_of_filter. split; [done | by apply dict_get_Some_elem].
Qed.

(** The artist list of the result is the key list of the filtered index,
    for every query. *)
Lemma search_library_keys (library : TrackIndex) (query : string) :
  dict_wf library →
  (search_library library query).2
  = dict_keys (search_library library query).1.
Proof.
  intros Hwf. destruct (decide (query = "")) as [->|Hq]; [done|].
  by rewrite search_library_filter.
Qed.

Lemma search_library_wf (library : TrackIndex) (query : string) :
  dict_wf library → dict_wf (search_library library query).1.
Proof.
  intros Hwf. destruct (decide (query = "")) as [->|Hq]; [done|].
  rewrite search_library_filter by done. by apply filter_wf.
Qed.

(** C1.  For a non-empty query the search filter lists an artist exactly
    when the query is a case-insensitive substring of the artist's name or
    of the basename of one of the artist's flattened tracks; a listed artist
    is mapped in the filtered index to the same albums as in the index, and
    an artist that is not listed is no key of the filtered index. *)
Theorem search_library_artist_granular (library : TrackIndex)
    (query : string) :
  dict_wf library → query ≠ "" →
  ∀ artist,
    (artist ∈ (search_library library query).2
     ↔ ∃ albums, dict_get artist library = Some albums
         ∧ artist_matches_query query artist albums)
    ∧ (artist ∈ (search_library library query).2 →
       dict_get artist (search_library library query).1
       = dict_get artist library)
    ∧ (artist ∉ (search_library library query).2 →
       dict_get artist (search_library library query).1 = None).
Proof.
  intros Hwf Hq artist.
  rewrite search_library_filter by done. cbn [fst snd].
  split_and!.
  - rewrite elem_of_filtered_keys by done.
    by setoid_rewrite entry_matches_spec.
  - intros Hin. unfold dict_keys in Hin.
    apply list_elem_of_fmap in Hin as ([a albums] & -> & Hin). cbn [fst].
    rewrite (dict_get_of_elem _ a albums); [|by apply filter_wf|done].
    apply list_elem_of_filter in Hin as [_ Hin].
    symmetry. by apply dict_get_of_elem.
  - intros Hout. by apply dict_get_None.
Qed.

Lemma sample_library_wf : dict_wf sample_library.
Proof. apply (bool_decide_unpack _). vm_compute. exact I. Qed.

Lemma search_library_artist_granular_witness :
  (dict_wf sample_library ∧ "a.mp3" ≠ "")
  ∧ ("Abba" ∈ (search_library sample_library "a.mp3").2
     ↔ ∃ albums, dict_get "Abba" sample_library = Some albums
         ∧ artist_matches_query "a.mp3" "Abba" albums)
  ∧ ("Abba" ∈ (search_library sample_library "a.mp3").2 →
     dict_get "Abba" (search_library sample_library "a.mp3").1
     = dict_get "Abba" sample_library)
  ∧ ("Abba" ∉ (search_library sample_library "a.mp3").2 →
     dict_get "Abba" (search_library sample_library "a.mp3").1 = None).
Proof.
  split.
  - split; [exact sample_library_wf | discriminate].
  - apply (search_library_artist_granular sample_library "a.mp3").
    + exact sample_library_wf.
    + discriminate.
Defined.

(** The scenario of the specification. *)
Example search_bjork :
  (search_library sample_library "bjork").2 = ["Bjork"].
Proof. vm_compute. reflexivity. Qed.

Example search_a_mp3 :
  search_library sample_library "a.mp3" = ([("Abba", abba_albums)], ["Abba"]).
Proof. vm_compute. reflexivity. Qed.

Example search_upper_case :
  (search_library sample_library "HUMAN").2 = ["Bjork"].
Proof. vm_compute. reflexivity. Qed.

Example search_directory_name_is_not_searched :
  (search_library sample_library "arrival").2 = [].
Proof. vm_compute. reflexivity. Qed.

(** C3.  With the empty query the search filter returns the index it was
    given and the artist names in the order of the index. *)
Theorem search_library_empty_query (library : TrackIndex) :
  search_library library "" = (library, dict_keys library).
Proof. reflexivity. Qed.

(** C10.  For every query the returned artist list has no duplicates and
    is a subsequence of the artist names of the index in their order, and a
    name is a key of the returned index exactly when it is in that list. *)
Theorem search_library_artists_sublist (library : TrackIndex)
    (query : string) :
  dict_wf library →
  NoDup (search_library library query).2
  ∧ (search_library library query).2 `sublist_of` dict_keys library
  ∧ ∀ artist,
      artist ∈ dict_keys (search_library library query).1
      ↔ artist ∈ (search_library library query).2.
Proof.
  intros Hwf. rewrite search_library_keys by done. split_and!; [| |done].
  - by apply search_library_wf.
  - destruct (decide (query = "")) as [->|Hq]; [done|].
    rewrite search_library_filter by done. apply filter_keys_sublist.
Qed.

Lemma search_library_artists_sublist_witness :
  dict_wf sample_library
  ∧ NoDup (search_library sample_library "b").2
  ∧ (search_library sample_library "b").2 `sublist_of` dict_keys sample_library
  ∧ ∀ artist,
      artist ∈ dict_keys (search_library sample_library "b").1
      ↔ artist ∈ (search_library sample_library "b").2.
Proof.
  split.
  - exact sample_library_wf.
  - apply (search_library_artists_sublist sample_library "b").
    exact sample_library_wf.
Defined.

(** ** Python sequences *)

Section PySeqFacts.
Context {A : Type}.
Implicit Types (l : list A) (i : Z).

Lemma py_index_nonneg l i : 0 <= i → py_index l i = l !! Z.to_nat i.
Proof. unfold py_index. intros H. by rewrite (proj2 (Z.leb_le 0 i) H). Qed.

Lemma py_index_in_range l i :
  0 <= i < len l → ∃ x, py_index l i = Some x ∧ x ∈ l.
Proof.
  unfold len. intros H. rewrite py_index_nonneg by lia.
  destruct (lookup_lt_is_Some_2 l (Z.to_nat i)) as [x Hx]; [lia|].
  exists x. split; [done | by eapply list_elem_of_lookup_2].
Qed.

Lemma py_slice_subseteq l a b x : x ∈ py_slice l a b → x ∈ l.
Proof.
  unfold py_slice. intros H.
  eapply sublist_subseteq; [|exact H].
  etrans; [apply sublist_take | apply sublist_drop].
Qed.

(** Inside a slice that starts at a position of the list, the item at
    [i] is the item of the list at [start + i]. *)
Lemma py_slice_index l start stop i :
  0 <= start <= len l → 0 <= i < len (py_slice l start stop) →
  py_index (py_slice l start stop) i = py_index l (i + start).
Proof.
  unfold len. intros Hs Hi.
  rewrite !py_index_nonneg by lia.
  destruct (lookup_lt_is_Some_2 (py_slice l start stop) (Z.to_nat i))
    as [x Hx]; [lia|].
  rewrite Hx. unfold py_slice in Hx.
  apply lookup_take_Some in Hx as [Hx _].
  rewrite lookup_drop in Hx. rewrite <-Hx. f_equal.
  unfold slice_bound, len. destruct (Z.ltb_spec start 0); lia.
Qed.
End PySeqFacts.

(** ** The drawing code does not raise in a state the loop reaches *)

Lemma session_ok_resize (o : Obs) (s : State) :
  session_ok s → session_ok (handle_resize o s).
Proof.
  unfold handle_resize, session_ok. case_bool_decide; [|done].
  simpl. intros (_ & _ & _ & _ & Hv). split_and!; (done || lia).
Qed.

Lemma current_artists_keys (library : TrackIndex) (s : State) :
  session_ok s →
  current_artists library s = dict_keys (current_library library s).
Proof.
  intros (_ & _ & _ & _ & H). unfold current_artists, current_library.
  by destruct (str_truthy (search_query s)).
Qed.

Lemma draw_lists_ok (library : TrackIndex) (s : State) :
  session_ok s → ∃ d, draw_lists library s = Some d.
Proof.
  intros Hok. pose proof Hok as (Ha & _).
  unfold draw_lists. cbv zeta.
  destruct (list_truthy _ && _) eqn:Hc; [|eauto].
  apply andb_true_iff in Hc as [_ Hlt].
  destruct (py_index_in_range
              (py_slice (current_artists library s)
                 (artist_offset (cursors s))
                 (artist_offset (cursors s) + max_rows (layout s)))
              (selected_artist (cursors s))) as (artist & Hidx & Hin); [lia|].
  rewrite Hidx. cbn [mbind option_bind].
  apply py_slice_subseteq in Hin.
  rewrite current_artists_keys in Hin by done.
  apply dict_get_is_Some in Hin as [albums Hal].
  rewrite Hal. cbn [mbind option_bind]. eauto.
Qed.

(** In a reachable state an iteration is the key handler of its mode, run
    after the resize check and the drawing. *)
Lemma tick_searching (library : TrackIndex) (o : Obs) (s : State) :
  session_ok s → search_active s = true →
  tick library o s
  = Continue (handle_search_key library o (handle_resize o s))
      (now_playing o (handle_resize o s)).
Proof.
  intros Hok Hs. unfold tick.
  destruct (draw_lists_ok library (handle_resize o s)) as [d ->];
    [by apply session_ok_resize|].
  assert (search_active (handle_resize o s) = true) as ->; [|done].
  unfold handle_resize. by case_bool_decide.
Qed.

Lemma tick_browsing (library : TrackIndex) (o : Obs) (s : State) :
  session_ok s → search_active s = false →
  ∃ d, draw_lists library (handle_resize o s) = Some d
    ∧ tick library o s
      = after (now_playing o (handle_resize o s))
          (handle_normal_key library o d (handle_resize o s)).
Proof.
  intros Hok Hs. unfold tick.
  destruct (draw_lists_ok library (handle_resize o s)) as [d Hd];
    [by apply session_ok_resize|].
  exists d. rewrite Hd. split; [done|].
  assert (search_active (handle_resize o s) = false) as ->; [|done].
  unfold handle_resize. by case_bool_decide.
Qed.

(** ** The reachable-state invariant

    [session_ok] is assumed by the statements about one iteration.  It
    holds in the initial state and every iteration keeps it, so a run never
    ends with a failing subscript. *)

Lemma move_back_nonneg (selected offset : Z) :
  0 <= selected → 0 <= offset →
  0 <= (move_back selected offset).1 ∧ 0 <= (move_back selected offset).2.
Proof.
  unfold move_back. intros Hs Ho.
  destruct (0 <? selected) eqn:?; [simpl; lia|].
  destruct (0 <? selected + offset) eqn:?; simpl; lia.
Qed.

Lemma move_forward_nonneg (rows n selected offset : Z) :
  0 <= selected → 0 <= offset →
  0 <= (move_forward rows n selected offset).1
  ∧ 0 <= (move_forward rows n selected offset).2.
Proof.
  unfold move_forward. intros Hs Ho.
  destruct (selected <? Z.min (rows - 1) (n - 1)) eqn:?; [simpl; lia|].
  destruct (selected + offset <? n - 1) eqn:?; simpl; lia.
Qed.

Lemma session_ok_init (library : TrackIndex) (h w : Z) :
  session_ok (init_state library h w).
Proof. unfold session_ok. simpl. split_and!; (done || lia). Qed.

Lemma session_ok_clear_filter (library : TrackIndex) (s : State) :
  session_ok (clear_filter library s).
Proof. unfold session_ok. simpl. split_and!; (done || lia). Qed.

Lemma session_ok_search_key (library : TrackIndex) (o : Obs) (s : State) :
  dict_wf library → session_ok s →
  session_ok (handle_search_key library o s).
Proof.
  intros Hwf Hok. unfold handle_search_key.
  destruct (is_escape (key o)); [apply session_ok_clear_filter|].
  destruct (is_enter (key o)).
  - cbn [with_search_active search_query].
    destruct (str_truthy _); [|done].
    unfold session_ok. simpl. split_and!; try lia.
    by apply search_library_keys.
  - destruct (is_backspace (key o)); [by destruct (str_truthy _)|].
    by destruct (is_printable (key o)).
Qed.

Lemma session_ok_normal_key (library : TrackIndex) (o : Obs) (d : Drawn)
    (s : State) :
  session_ok s → step_ok (handle_normal_key library o d s).
Proof.
  intros Hok. unfold handle_normal_key.
  destruct (key o =? ord "/"); [done|].
  set (s2 := if (key o =? ord "c") && str_truthy (search_query s)
             then clear_filter library s else s).
  assert (session_ok s2) as (Ha & Hao & Hs & Hso & Hv).
  { unfold s2. destruct (_ && _); [apply session_ok_clear_filter | done]. }
  destruct (key o =? KEY_UP).
  { destruct (move_back_nonneg _ _ Ha Hao).
    destruct (move_back _ _). unfold step_ok, session_ok. simpl in *.
    split_and!; (done || lia). }
  destruct (key o =? KEY_DOWN).
  { destruct (move_forward_nonneg (max_rows (layout s2))
                (len (current_artists library s2)) _ _ Ha Hao).
    destruct (move_forward _ _ _ _). unfold step_ok, session_ok. simpl in *.
    split_and!; (done || lia). }
  destruct (key o =? KEY_LEFT).
  { destruct (move_back_nonneg _ _ Hs Hso).
    destruct (move_back _ _). unfold step_ok, session_ok. simpl in *.
    split_and!; (done || lia). }
  destruct (key o =? KEY_RIGHT).
  { destruct (move_forward_nonneg (max_rows (layout s2))
                (len (all_songs_by_artist d)) _ _ Hs Hso).
    destruct (move_forward _ _ _ _). unfold step_ok, session_ok. simpl in *.
    split_and!; (done || lia). }
  destruct (is_enter (key o)).
  { destruct (list_truthy (visible_songs d) && _) eqn:Hc;
      [|by unfold step_ok, session_ok].
    apply andb_true_iff in Hc as [_ Hlt].
    destruct (py_index_in_range (visible_songs d) (selected_song (cursors s2)))
      as (song & -> & _); [lia|].
    destruct (list_truthy (visible_artists d) && _) eqn:Hc';
      [|by unfold step_ok, session_ok].
    apply andb_true_iff in Hc' as [_ Hlt'].
    destruct (py_index_in_range (visible_artists d)
                (selected_artist (cursors s2))) as (artist & -> & _); [lia|].
    by unfold step_ok, session_ok. }
  repeat case_match; by unfold step_ok, session_ok.
Qed.

Lemma session_ok_tick (library : TrackIndex) (o : Obs) (s : State) :
  dict_wf library → session_ok s → step_ok (tick library o s).
Proof.
  intros Hwf Hok. apply (session_ok_resize o) in Hok.
  unfold tick. cbv zeta.
  destruct (draw_lists_ok library _ Hok) as [d ->].
  destruct (search_active (handle_resize o s)).
  - by apply session_ok_search_key.
  - pose proof (session_ok_normal_key library o d _ Hok) as Hk.
    by destruct (handle_normal_key library o d (handle_resize o s)).
Qed.

(** A session on a well-formed index never ends with an exception, and
    the state it is in or quits from satisfies the invariant. *)
Lemma main_loop_ok (library : TrackIndex) (obs : list Obs) (s : State) :
  dict_wf library → session_ok s →
  match (main_loop library obs s).2 with
  | Running s' | Quit s' => session_ok s'
  | Crashed => False
  end.
Proof.
  intros Hwf. revert s. induction obs as [|o obs IH]; intros s Hok; simpl.
  - done.
  - pose proof (session_ok_tick library o s Hwf Hok) as Ht.
    destruct (tick library o s) as [s' c|s' c|c]; simpl in *;
      [by apply IH | done | done].
Qed.

Lemma main_ui_no_exception (library : TrackIndex) (h w : Z)
    (obs : list Obs) (r : list PlayerCmd * Outcome) :
  dict_wf library → main_ui library h w obs = Some r → r.2 ≠ Crashed.
Proof.
  intros Hwf. unfold main_ui. destruct (list_truthy library); [|done].
  intros [= <-] Hc. cbn [snd] in Hc.
  pose proof (main_loop_ok library obs (init_state library h w) Hwf
                (session_ok_init library h w)) as Hok.
  by rewrite Hc in Hok.
Qed.

(** ** Whitespace *)

Lemma rstrip_empty (s : string) : rstrip s = "" ↔ whitespace_only s.
Proof.
  induction s as [|c r IH]; simpl; [done|].
  destruct (rstrip r) eqn:Hr.
  - destruct (is_space c); split; try done.
    + intros _. split; [done | by apply IH].
    + by intros [? _].
  - split; [done|]. intros [_ Hw]. by apply IH in Hw.
Qed.

Lemma whitespace_only_lstrip (s : string) :
  whitespace_only (lstrip s) ↔ whitespace_only s.
Proof.
  induction s as [|c r IH]; simpl; [done|].
  destruct (is_space c) eqn:Hc; simpl; rewrite ?Hc; [|done].
  rewrite IH. tauto.
Qed.

(** The trimmed query is empty exactly for a query that is empty or made
    of whitespace only. *)
Lemma strip_empty (s : string) : strip s = "" ↔ whitespace_only s.
Proof. unfold strip. by rewrite rstrip_empty, whitespace_only_lstrip. Qed.

Lemma str_truthy_false (s : string) : str_truthy s = false ↔ s = "".
Proof. by destruct s. Qed.

Lemma str_truthy_true (s : string) : str_truthy s = true ↔ s ≠ "".
Proof. by destruct s. Qed.

(** ** Resize *)

Lemma handle_resize_same (o : Obs) (s : State) :
  (new_height o, new_width o) = (height (layout s), width (layout s)) →
  handle_resize o s = s.
Proof. intros H. unfold handle_resize. by rewrite bool_decide_eq_false_2 by auto. Qed.

Lemma handle_resize_idem (o : Obs) (s : State) :
  handle_resize o (handle_resize o s) = handle_resize o s.
Proof.
  apply handle_resize_same. unfold handle_resize.
  case_bool_decide as H; [done|].
  by destruct (decide ((new_height o, new_width o)
                       = (height (layout s), width (layout s)))).
Qed.

(** The resize check touches the cursors and the layout only. *)
Lemma handle_resize_frame (o : Obs) (s : State) :
  let s' := handle_resize o s in
  search_active s' = search_active s ∧ search_query s' = search_query s
  ∧ filtered_library s' = filtered_library s
  ∧ filtered_artists s' = filtered_artists s
  ∧ curr_song s' = curr_song s ∧ curr_artist s' = curr_artist s
  ∧ playing s' = playing s ∧ repeat s' = repeat s ∧ volume s' = volume s.
Proof. unfold handle_resize. by case_bool_decide. Qed.

(** C5.  In an iteration whose terminal size differs from the recorded
    one, whatever the mode, the resize check sets both cursors and both
    offsets to zero and recomputes the layout from the new size; it runs
    first, so the iteration is the one that starts from that reset state. *)
Theorem resize_resets_cursors (library : TrackIndex) (o : Obs) (s : State) :
  (new_height o, new_width o) ≠ (height (layout s), width (layout s)) →
  cursors (handle_resize o s)
  = {| selected_artist := 0; artist_offset := 0;
       selected_song := 0; song_offset := 0 |}
  ∧ layout (handle_resize o s) = compute_layout (new_height o) (new_width o)
  ∧ max_rows (layout (handle_resize o s)) = new_height o - 12
  ∧ tick library o s = tick library o (handle_resize o s).
Proof.
  intros Hne. split_and!.
  - unfold handle_resize. by rewrite bool_decide_eq_true_2.
  - unfold handle_resize. by rewrite bool_decide_eq_true_2.
  - unfold handle_resize. rewrite bool_decide_eq_true_2 by done. simpl. lia.
  - unfold tick at 2. by rewrite handle_resize_idem.
Qed.

Lemma resize_resets_cursors_witness :
  (new_height (press KEY_DOWN), new_width (press KEY_DOWN))
  ≠ (height (layout scrolled_state), width (layout scrolled_state))
  ∧ cursors (handle_resize (press KEY_DOWN) scrolled_state) = top
  ∧ max_rows (layout (handle_resize (press KEY_DOWN) scrolled_state)) = 12.
Proof.
  assert ((new_height (press KEY_DOWN), new_width (press KEY_DOWN))
          ≠ (height (layout scrolled_state), width (layout scrolled_state)))
    as Hne by (vm_compute; congruence).
  split; [exact Hne|].
  destruct (resize_resets_cursors sample_library (press KEY_DOWN)
              scrolled_state Hne) as (Hc & _ & Hr & _).
  split; [exact Hc | exact Hr].
Defined.

(** The key of the iteration is handled after the reset: Down arrives
    with a new terminal size, the cursor goes to the top and then one down. *)
Example resize_then_key :
  tick sample_library (press KEY_DOWN)
    (with_cursors {| selected_artist := 0; artist_offset := 1;
                     selected_song := 0; song_offset := 0 |}
       (with_layout (compute_layout 12 80) sample_state))
  = Continue
      (with_cursors {| selected_artist := 1; artist_offset := 0;
                       selected_song := 0; song_offset := 0 |} sample_state)
      [].
Proof. vm_compute. reflexivity. Qed.

(** ** Search mode *)

(** C4.  While searching, Enter always ends the iteration in browsing
    mode.  When the trimmed query is not empty, the filtered index and
    artist list become the result of the search filter on the trimmed query,
    they are the active view, and both cursors and both offsets are zero.
    When the query is empty or whitespace only, the filtered index, the
    filtered artist list and the active view are what they were. *)
Theorem confirm_in_search (library : TrackIndex) (o : Obs) (s : State) :
  session_ok s → search_active s = true → is_enter (key o) = true →
  ∃ s' cmds,
    tick library o s = Continue s' cmds
    ∧ search_active s' = false
    ∧ (strip (search_query s) ≠ "" →
       (filtered_library s', filtered_artists s')
       = search_library library (strip (search_query s))
       ∧ current_library library s' = filtered_library s'
       ∧ current_artists library s' = filtered_artists s'
       ∧ cursors s' = top)
    ∧ (whitespace_only (search_query s) →
       filtered_library s' = filtered_library s
       ∧ filtered_artists s' = filtered_artists s
       ∧ current_library library s' = current_library library s
       ∧ current_artists library s' = current_artists library s).
Proof.
  intros Hok Hs Hk. rewrite tick_searching by done.
  eexists _, _. split; [done|].
  destruct (handle_resize_frame o s) as (_ & Hq & Hfl & Hfa & _).
  cbv zeta in *. unfold handle_search_key.
  assert (is_escape (key o) = false) as ->.
  { unfold is_escape, is_enter, KEY_ENTER in *. lia. }
  rewrite Hk. cbn [with_search_active search_query]. rewrite Hq.
  destruct (str_truthy (strip (search_query s))) eqn:Ht.
  - apply str_truthy_true in Ht. split_and!; [done| |].
    + intros _. unfold current_library, current_artists.
      cbn [with_cursors with_filtered with_search_active search_query
           filtered_library filtered_artists cursors].
      rewrite Hq.
      assert (str_truthy (search_query s) = true) as ->.
      { apply str_truthy_true. intros Hq'. apply Ht. by rewrite Hq'. }
      by destruct (search_library library (strip (search_query s))).
    + intros Hw. by apply strip_empty in Hw.
  - apply str_truthy_false in Ht. split_and!; [done| |].
    + intros Hne. by destruct Hne.
    + intros _. unfold current_library, current_artists.
      cbn [with_search_active search_query filtered_library
           filtered_artists].
      by rewrite Hq, Hfl, Hfa.
Qed.

Lemma sample_state_ok (s : State) :
  cursors s = top → filtered_library s = sample_library →
  filtered_artists s = dict_keys sample_library → session_ok s.
Proof. intros Hc Hl Ha. unfold session_ok. by rewrite Hc, Hl, Ha. Qed.

Lemma confirm_in_search_witness :
  ∃ s' cmds,
    tick sample_library (press 10) searching_state = Continue s' cmds
    ∧ search_active s' = false
    ∧ (strip (search_query searching_state) ≠ "" →
       (filtered_library s', filtered_artists s')
       = search_library sample_library (strip (search_query searching_state))
       ∧ current_library sample_library s' = filtered_library s'
       ∧ current_artists sample_library s' = filtered_artists s'
       ∧ cursors s' = top)
    ∧ (whitespace_only (search_query searching_state) →
       filtered_library s' = filtered_library searching_state
       ∧ filtered_artists s' = filtered_artists searching_state
       ∧ current_library sample_library s'
         = current_library sample_library searching_state
       ∧ current_artists sample_library s'
         = current_artists sample_library searching_state).
Proof.
  apply (confirm_in_search sample_library (press 10) searching_state).
  - unfold session_ok. vm_compute. repeat split; discriminate.
  - reflexivity.
  - reflexivity.
Defined.

Example confirm_filters_the_view :
  tick sample_library (press 10) searching_state
  = Continue
      (with_filtered ([("Bjork", bjork_albums)], ["Bjork"])
         (with_search_active false searching_state)) [].
Proof. vm_compute. reflexivity. Qed.

(** C8.  While searching, an iteration never ends the loop: it continues,
    a printable key (the quit key [q] is one) is appended to the query and
    search mode stays on, and search mode is left exactly on Escape or
    Enter.  An iteration ends the loop exactly when the session is browsing
    and the key is [q]. *)
Theorem quit_only_while_browsing (library : TrackIndex) (o : Obs)
    (s : State) :
  session_ok s →
  (search_active s = true →
   ∃ s' cmds,
     tick library o s = Continue s' cmds
     ∧ (is_printable (key o) = true →
        search_query s' = search_query s +:+ String (chr (key o)) ""
        ∧ search_active s' = true)
     ∧ (key o = ord "q" → search_query s' = search_query s +:+ "q")
     ∧ (search_active s' = false
        ↔ is_escape (key o) = true ∨ is_enter (key o) = true))
  ∧ ((∃ s' cmds, tick library o s = Break s' cmds)
     ↔ search_active s = false ∧ key o = ord "q").
Proof.
  intros Hok. split.
  - intros Hs. rewrite tick_searching by done.
    eexists _, _. split; [done|].
    destruct (handle_resize_frame o s) as (Ha & Hq & _).
    cbv zeta in *. rewrite Hs in Ha. unfold handle_search_key.
    unfold is_escape, is_enter, is_backspace, is_printable,
      KEY_ENTER, KEY_BACKSPACE.
    split_and!.
    + intros Hp.
      destruct (key o =? 27) eqn:?; [lia|].
      destruct ((key o =? 343) || (key o =? 10) || (key o =? 13)) eqn:?; [lia|].
      destruct ((key o =? 263) || (key o =? 8) || (key o =? 127)) eqn:?; [lia|].
      rewrite Hp. simpl. by rewrite Hq, Ha.
    + intros ->. simpl. by rewrite Hq.
    + destruct (key o =? 27) eqn:?; [simpl; tauto|].
      destruct ((key o =? 343) || (key o =? 10) || (key o =? 13)) eqn:?.
      { cbn [with_search_active search_query].
        destruct (str_truthy _); simpl; tauto. }
      destruct ((key o =? 263) || (key o =? 8) || (key o =? 127)) eqn:?.
      { destruct (str_truthy _); simpl; rewrite Ha;
          (split; [discriminate | intros [?|?]; discriminate]). }
      destruct ((32 <=? key o) && (key o <=? 126)); simpl; rewrite Ha;
        (split; [discriminate | intros [?|?]; discriminate]).
  - split.
    + intros (s' & cmds & Ht).
      destruct (search_active s) eqn:Hs.
      { by rewrite tick_searching in Ht. }
      split; [done|].
      destruct (tick_browsing library o s Hok Hs) as (d & _ & Ht').
      rewrite Ht' in Ht. clear Ht'.
      destruct (decide (key o = ord "q")) as [|Hne]; [done|]. exfalso.
      unfold handle_normal_key, after in Ht.
      repeat case_match; simplify_eq; try discriminate;
        change (ord "q") with 113 in *; lia.
    + intros [Hs Hk].
      destruct (tick_browsing library o s Hok Hs) as (d & _ & ->).
      unfold handle_normal_key. rewrite Hk. simpl. eauto.
Qed.

Lemma quit_only_while_browsing_witness :
  session_ok searching_state
  ∧ (search_active searching_state = true →
     ∃ s' cmds,
       tick sample_library (press (ord "q")) searching_state
       = Continue s' cmds
       ∧ (is_printable (key (press (ord "q"))) = true →
          search_query s'
          = search_query searching_state
            +:+ String (chr (key (press (ord "q")))) ""
          ∧ search_active s' = true)
       ∧ (key (press (ord "q")) = ord "q" →
          search_query s' = search_query searching_state +:+ "q")
       ∧ (search_active s' = false
          ↔ is_escape (key (press (ord "q"))) = true
            ∨ is_enter (key (press (ord "q"))) = true))
  ∧ ((∃ s' cmds,
        tick sample_library (press (ord "q")) searching_state
        = Break s' cmds)
     ↔ search_active searching_state = false
       ∧ key (press (ord "q")) = ord "q").
Proof.
  assert (session_ok searching_state) as Hok.
  { unfold session_ok. vm_compute. repeat split; discriminate. }
  split; [exact Hok|].
  exact (quit_only_while_browsing sample_library (press (ord "q"))
           searching_state Hok).
Defined.

Example q_is_typed_while_searching :
  tick sample_library (press (ord "q")) searching_state
  = Continue (with_search_query "bjorkq" searching_state) [].
Proof. vm_compute. reflexivity. Qed.

Example q_quits_while_browsing :
  tick sample_library (press (ord "q")) sample_state = Break sample_state [].
Proof. vm_compute. reflexivity. Qed.

(** ** Artist navigation *)

(** C9.  While browsing, an iteration with the Up or the Down key ends
    with the song cursor and the song offset at zero, whether or not the
    artist cursor moves, and with the mode, the query, the filtered view,
    the current song and artist, the playing and repeat flags and the volume
    as they were. *)
Theorem artist_navigation_frame (library : TrackIndex) (o : Obs)
    (s : State) :
  session_ok s → search_active s = false →
  key o = KEY_UP ∨ key o = KEY_DOWN →
  ∃ s' cmds,
    tick library o s = Continue s' cmds
    ∧ selected_song (cursors s') = 0 ∧ song_offset (cursors s') = 0
    ∧ search_active s' = search_active s
    ∧ search_query s' = search_query s
    ∧ filtered_library s' = filtered_library s
    ∧ filtered_artists s' = filtered_artists s
    ∧ curr_song s' = curr_song s ∧ curr_artist s' = curr_artist s
    ∧ playing s' = playing s ∧ repeat s' = repeat s
    ∧ volume s' = volume s.
Proof.
  intros Hok Hs Hk.
  destruct (tick_browsing library o s Hok Hs) as (d & _ & ->).
  pose proof (handle_resize_frame o s) as Hf. cbv zeta in Hf.
  unfold handle_normal_key.
  destruct Hk as [Hk|Hk]; rewrite Hk; cbn [Z.eqb KEY_UP KEY_DOWN ord
    N_of_ascii Z.of_N N.add N.mul Pos.eqb andb];
    simpl; destruct (move_back _ _) || destruct (move_forward _ _ _ _);
    simpl; eexists _, _; (split; [done|]); simpl; tauto.
Qed.

Lemma artist_navigation_frame_witness :
  (session_ok sample_state ∧ search_active sample_state = false
   ∧ (key (press KEY_UP) = KEY_UP ∨ key (press KEY_UP) = KEY_DOWN))
  ∧ ∃ s' cmds,
      tick sample_library (press KEY_UP) sample_state = Continue s' cmds
      ∧ selected_song (cursors s') = 0 ∧ song_offset (cursors s') = 0
      ∧ search_active s' = search_active sample_state
      ∧ search_query s' = search_query sample_state
      ∧ filtered_library s' = filtered_library sample_state
      ∧ filtered_artists s' = filtered_artists sample_state
      ∧ curr_song s' = curr_song sample_state
      ∧ curr_artist s' = curr_artist sample_state
      ∧ playing s' = playing sample_state ∧ repeat s' = repeat sample_state
      ∧ volume s' = volume sample_state.
Proof.
  assert (session_ok sample_state) as Hok.
  { unfold session_ok. vm_compute. repeat split; discriminate. }
  split; [split_and!; [exact Hok | reflexivity | left; reflexivity]|].
  apply (artist_navigation_frame sample_library (press KEY_UP) sample_state).
  - exact Hok.
  - reflexivity.
  - left. reflexivity.
Defined.

(** While searching, Up is no navigation input: nothing moves. *)
Example up_is_ignored_while_searching :
  tick sample_library (press KEY_UP)
    (with_cursors {| selected_artist := 0; artist_offset := 0;
                     selected_song := 1; song_offset := 0 |} searching_state)
  = Continue
      (with_cursors {| selected_artist := 0; artist_offset := 0;
                       selected_song := 1; song_offset := 0 |} searching_state)
      [].
Proof. vm_compute. reflexivity. Qed.

Example up_at_the_top_resets_the_song_cursor :
  tick sample_library (press KEY_UP)
    (with_cursors {| selected_artist := 0; artist_offset := 0;
                     selected_song := 1; song_offset := 0 |} sample_state)
  = Continue sample_state [].
Proof. vm_compute. reflexivity. Qed.

(** ** Volume *)

Lemma handle_search_key_volume (library : TrackIndex) (o : Obs) (s : State) :
  volume (handle_search_key library o s) = volume s.
Proof. unfold handle_search_key. by repeat case_match. Qed.

Lemma now_playing_volume (o : Obs) (s : State) :
  Forall volume_cmd_ok (now_playing o s).
Proof.
  unfold now_playing. repeat case_match; repeat constructor.
Qed.

Lemma handle_normal_key_volume (library : TrackIndex) (o : Obs) (d : Drawn)
    (s : State) :
  0 <= volume s <= 100 → step_volume_ok (handle_normal_key library o d s).
Proof.
  intros Hv. unfold handle_normal_key.
  repeat case_match; simpl; repeat split;
    repeat constructor; simpl; lia.
Qed.

Lemma after_volume (cmds : list PlayerCmd) (r : Step) :
  Forall volume_cmd_ok cmds → step_volume_ok r → step_volume_ok (after cmds r).
Proof.
  intros Hc. destruct r; simpl; rewrite Forall_app; tauto.
Qed.

Lemma tick_volume (library : TrackIndex) (o : Obs) (s : State) :
  0 <= volume s <= 100 → step_volume_ok (tick library o s).
Proof.
  intros Hv. unfold tick.
  destruct (handle_resize_frame o s) as (_ & _ & _ & _ & _ & _ & _ & _ & Hr).
  cbv zeta in Hr. rewrite <-Hr in Hv.
  destruct (draw_lists library (handle_resize o s)) as [d|]; [|constructor].
  destruct (search_active (handle_resize o s)).
  - simpl. rewrite handle_search_key_volume.
    split; [done | apply now_playing_volume].
  - apply after_volume;
      [apply now_playing_volume | by apply handle_normal_key_volume].
Qed.

Lemma main_loop_volume (library : TrackIndex) (obs : list Obs) (s : State) :
  0 <= volume s <= 100 →
  Forall volume_cmd_ok (main_loop library obs s).1
  ∧ outcome_volume_ok (main_loop library obs s).2.
Proof.
  revert s. induction obs as [|o obs IH]; intros s Hv; simpl.
  - split; [constructor | done].
  - pose proof (tick_volume library o s Hv) as Ht.
    destruct (tick library o s) as [s' c|s' c|c]; simpl in *.
    + destruct Ht as [Hv' Hc]. destruct (IH s' Hv') as [H1 H2].
      split; [by apply Forall_app | done].
    + tauto.
    + tauto.
Qed.

(** One volume key while browsing: the level moves by 5, clamped to
    0..100, and that level is what the player is sent. *)
Lemma volume_key (library : TrackIndex) (o : Obs) (s : State) (delta : Z) :
  session_ok s → search_active s = false → 0 <= volume s <= 100 →
  (key o = ord "=" ∧ delta = 5) ∨ (key o = ord "-" ∧ delta = -5) →
  tick library o s
  = Continue
      (with_volume (clamp 0 100 (volume s + delta)) (handle_resize o s))
      (now_playing o (handle_resize o s)
       ++ [AudioSetVolume (clamp 0 100 (volume s + delta))]).
Proof.
  intros Hok Hs Hv Hk.
  destruct (tick_browsing library o s Hok Hs) as (d & _ & ->).
  destruct (handle_resize_frame o s) as (_ & _ & _ & _ & _ & _ & _ & _ & Hr).
  cbv zeta in Hr. unfold handle_normal_key, clamp.
  destruct Hk as [[-> ->]|[-> ->]]; simpl; rewrite Hr.
  - by replace (Z.max 0 (Z.min 100 (volume s + 5)))
      with (Z.min 100 (volume s + 5)) by lia.
  - by replace (Z.max 0 (Z.min 100 (volume s + -5)))
      with (Z.max 0 (volume s - 5)) by lia.
Qed.

(** C7.  From the initial volume of 50, whatever the keys, every
    set-volume command of a run carries a level in 0..100 and the volume of
    the state the run ends in is in 0..100; while browsing, the volume-up
    key and the volume-down key move the level by 5, clamped to 0..100, and
    send the player that level. *)
Theorem volume_stays_in_range (library : TrackIndex) :
  (∀ h w obs r,
     main_ui library h w obs = Some r →
     Forall volume_cmd_ok r.1 ∧ outcome_volume_ok r.2)
  ∧ (∀ h w, volume (init_state library h w) = 50)
  ∧ ∀ o s,
      session_ok s → search_active s = false → 0 <= volume s <= 100 →
      (key o = ord "=" →
       tick library o s
       = Continue
           (with_volume (clamp 0 100 (volume s + 5)) (handle_resize o s))
           (now_playing o (handle_resize o s)
            ++ [AudioSetVolume (clamp 0 100 (volume s + 5))]))
      ∧ (key o = ord "-" →
         tick library o s
         = Continue
             (with_volume (clamp 0 100 (volume s - 5)) (handle_resize o s))
             (now_playing o (handle_resize o s)
              ++ [AudioSetVolume (clamp 0 100 (volume s - 5))])).
Proof.
  split_and!; [|done|].
  - intros h w obs r. unfold main_ui.
    destruct (list_truthy library); [|done]. intros [= <-].
    destruct (main_loop_volume library obs (init_state library h w))
      as [Hc Hv]; [simpl; lia|].
    split; [|done]. constructor; [simpl; lia | done].
  - intros o s Hok Hs Hv. split; intros Hk.
    + apply volume_key; auto.
    + apply (volume_key library o s (-5)); auto.
Qed.

Lemma volume_stays_in_range_witness :
  (main_ui sample_library 24 80
     (replicate 12 (press (ord "=")) ++ [press (ord "q")])
   = Some (AudioSetVolume 50
             :: ((λ v, AudioSetVolume v)
                   <$> [55; 60; 65; 70; 75; 80; 85; 90; 95; 100; 100; 100]),
           Quit (with_volume 100 sample_state)))
  ∧ (session_ok sample_state ∧ search_active sample_state = false
     ∧ 0 <= volume sample_state <= 100
     ∧ key (press (ord "-")) = ord "-")
  ∧ tick sample_library (press (ord "-")) sample_state
    = Continue (with_volume 45 sample_state) [AudioSetVolume 45]
  ∧ Forall volume_cmd_ok
      (AudioSetVolume 50
         :: ((λ v, AudioSetVolume v)
               <$> [55; 60; 65; 70; 75; 80; 85; 90; 95; 100; 100; 100])).
Proof.
  assert (session_ok sample_state) as Hok.
  { unfold session_ok. vm_compute. repeat split; discriminate. }
  destruct (volume_stays_in_range sample_library) as (Hrun & _ & Hkey).
  split; [|split; [|split]].
  - vm_compute. reflexivity.
  - split; [exact Hok|]. split; [reflexivity|]. split; [simpl; lia|].
    reflexivity.
  - destruct (Hkey (press (ord "-")) sample_state Hok)
      as [_ Hdown]; [reflexivity | simpl; lia |].
    rewrite (Hdown eq_refl). vm_compute. reflexivity.
  - apply (Hrun 24 80 (replicate 12 (press (ord "=")) ++ [press (ord "q")])
             (_, Quit (with_volume 100 sample_state))).
    vm_compute. reflexivity.
Defined.

(** ** Seeking *)

(** What the four seek keys send while browsing with a track loaded: a
    backward seek is bounded below by zero, a forward seek above by the
    length the player reports. *)
Lemma seek_key (library : TrackIndex) (o : Obs) (s : State) :
  session_ok s → search_active s = false → opt_truthy (curr_song s) = true →
  ∀ target,
    (key o = ord "," ∧ target = Z.max 0 (player_time o - 5000))
    ∨ (key o = ord "<" ∧ target = Z.max 0 (player_time o - 10000))
    ∨ (key o = ord "." ∧ target = Z.min (player_length o) (player_time o + 5000))
    ∨ (key o = ord ">" ∧ target = Z.min (player_length o) (player_time o + 10000)) →
    tick library o s
    = Continue (handle_resize o s)
        (now_playing o (handle_resize o s) ++ [SetTime target]).
Proof.
  intros Hok Hs Hc target Hk.
  destruct (tick_browsing library o s Hok Hs) as (d & _ & ->).
  destruct (handle_resize_frame o s) as (_ & _ & _ & _ & Hr & _).
  cbv zeta in Hr. unfold handle_normal_key.
  destruct Hk as [[-> ->]|[[-> ->]|[[-> ->]|[-> ->]]]];
    simpl; by rewrite Hr, Hc.
Qed.

(** When the player's position lies between zero and its length, each of
    the four targets is the requested position clamped to that interval. *)
Lemma seek_targets_clamped (t d delta : Z) :
  0 <= t <= d → 0 <= delta →
  Z.max 0 (t - delta) = clamp 0 d (t - delta)
  ∧ Z.min d (t + delta) = clamp 0 d (t + delta).
Proof. unfold clamp. lia. Qed.



(** ** Navigation bounds *)

Lemma window_ok_sum (rows n selected offset : Z) :
  window_ok rows n selected offset → 0 <= selected + offset <= n - 1.
Proof. unfold window_ok. lia. Qed.

Lemma window_ok_top (rows n : Z) : 1 <= n → window_ok rows n 0 0.
Proof. unfold window_ok. lia. Qed.

Lemma window_ok_back (rows n selected offset : Z) :
  window_ok rows n selected offset →
  window_ok rows n (move_back selected offset).1 (move_back selected offset).2.
Proof.
  unfold window_ok, move_back. intros H.
  destruct (0 <? selected) eqn:?; [simpl; lia|].
  destruct (0 <? selected + offset) eqn:?; simpl; lia.
Qed.

Lemma window_ok_forward (rows n selected offset : Z) :
  window_ok rows n selected offset →
  window_ok rows n (move_forward rows n selected offset).1
    (move_forward rows n selected offset).2.
Proof.
  unfold window_ok, move_forward. intros H.
  destruct (selected <? Z.min (rows - 1) (n - 1)) eqn:?; [simpl; lia|].
  destruct (selected + offset <? n - 1) eqn:?; simpl; lia.
Qed.

(** Nothing moves forward in an empty list. *)
Lemma move_forward_empty (rows selected offset : Z) :
  0 <= selected → 0 <= offset →
  move_forward rows 0 selected offset = (selected, offset).
Proof.
  unfold move_forward. intros Hs Ho.
  destruct (selected <? Z.min (rows - 1) (0 - 1)) eqn:?; [lia|].
  destruct (selected + offset <? 0 - 1) eqn:?; [lia | done].
Qed.

Section Navigation.
Variable library : TrackIndex.
Hypothesis library_nonempty : library ≠ [].
Hypothesis every_artist_has_songs :
  ∀ artist albums, (artist, albums) ∈ library → flatten_album albums ≠ [].

Lemma artists_nonempty : 1 <= len (dict_keys library).
Proof.
  unfold len, dict_keys. destruct library; [done|]. simpl. lia.
Qed.

(** With no filter, a cursor inside the artist list is on an artist that
    has songs. *)
Lemma songs_under_cursor_nonempty (s : State) :
  search_query s = "" →
  0 <= selected_artist (cursors s) + artist_offset (cursors s)
    <= len (dict_keys library) - 1 →
  ∃ songs, songs_under_cursor library s = Some songs ∧ 1 <= len songs.
Proof.
  intros Hq Hin. unfold songs_under_cursor, current_artists, current_library.
  rewrite Hq. cbn [str_truthy].
  destruct (py_index_in_range (dict_keys library)
              (selected_artist (cursors s) + artist_offset (cursors s)))
    as (artist & -> & Hk); [lia|].
  apply dict_get_is_Some in Hk as [albums Hal].
  cbn [mbind option_bind]. rewrite Hal. cbn [mbind option_bind].
  eexists. split; [done|].
  apply dict_get_Some_elem, every_artist_has_songs in Hal.
  unfold len. destruct (flatten_album albums); [done | simpl; lia].
Qed.

(** A state whose artist cursor is within bounds and whose song cursor
    is at the top satisfies the invariant. *)
Lemma nav_ok_song_top (s : State) (sel off : Z) :
  session_ok s → search_active s = false → search_query s = "" →
  window_ok (max_rows (layout s)) (len (dict_keys library)) sel off →
  nav_ok library
    (with_cursors {| selected_artist := sel; artist_offset := off;
                     selected_song := 0; song_offset := 0 |} s).
Proof.
  intros (_ & _ & _ & _ & Hv) Hs Hq Hw. unfold nav_ok. split_and!.
  - unfold session_ok, window_ok in *. simpl. split_and!; (done || lia).
  - done.
  - done.
  - done.
  - destruct (songs_under_cursor_nonempty
                (with_cursors {| selected_artist := sel;
                                 artist_offset := off;
                                 selected_song := 0; song_offset := 0 |} s))
      as (songs & Hsongs & Hlen); [done | by apply window_ok_sum in Hw |].
    exists songs. split; [done|]. by apply window_ok_top.
Qed.

Lemma nav_ok_init (h w : Z) : nav_ok library (init_state library h w).
Proof.
  apply (nav_ok_song_top
           {| cursors := top; layout := compute_layout h w;
              curr_song := None; curr_artist := None;
              playing := false; repeat := false;
              search_active := false; search_query := "";
              filtered_library := library;
              filtered_artists := dict_keys library; volume := 50 |} 0 0).
  - unfold session_ok. simpl. split_and!; (done || lia).
  - done.
  - done.
  - apply window_ok_top, artists_nonempty.
Qed.

Lemma nav_ok_resize (o : Obs) (s : State) :
  nav_ok library s → nav_ok library (handle_resize o s).
Proof.
  intros Hn. unfold handle_resize. case_bool_decide; [|done].
  destruct Hn as (Hok & Hs & Hq & _).
  apply (nav_ok_song_top
           (with_layout (compute_layout (new_height o) (new_width o)) s)
           0 0); [done | done | done |].
  apply window_ok_top, artists_nonempty.
Qed.

(** What the drawing code hands to the Right key is the song list of
    the artist under the cursor, or nothing when no artist is drawn. *)
Lemma draw_lists_songs (s : State) (songs : list string) :
  0 <= selected_artist (cursors s) →
  0 <= artist_offset (cursors s) <= len (current_artists library s) →
  songs_under_cursor library s = Some songs →
  ∃ d, draw_lists library s = Some d
    ∧ (all_songs_by_artist d = [] ∨ all_songs_by_artist d = songs).
Proof.
  intros Hsel Hoff Hsongs. unfold draw_lists. cbv zeta.
  destruct (list_truthy _ && _) eqn:Hc; [|eauto].
  apply andb_true_iff in Hc as [_ Hlt].
  rewrite py_slice_index by lia.
  unfold songs_under_cursor in Hsongs.
  destruct (py_index _ _) as [artist|]; [|done].
  cbn [mbind option_bind] in *.
  destruct (dict_get _ _) as [albums|]; [|done].
  cbn [mbind option_bind] in *. injection Hsongs as <-. eauto.
Qed.

Lemma directional_cases (k : Z) :
  is_directional k = true →
  k = KEY_UP ∨ k = KEY_DOWN ∨ k = KEY_LEFT ∨ k = KEY_RIGHT.
Proof. unfold is_directional. lia. Qed.

(** An iteration with a directional key continues and keeps the
    invariant. *)
Lemma nav_ok_tick (o : Obs) (s : State) :
  is_directional (key o) = true → nav_ok library s →
  ∃ s' cmds, tick library o s = Continue s' cmds ∧ nav_ok library s'.
Proof.
  intros Hk Hn. apply (nav_ok_resize o) in Hn.
  unfold tick. cbv zeta. set (s1 := handle_resize o s) in *.
  destruct Hn as (Hok & Hs & Hq & Hwa & songs & Hsongs & Hws).
  destruct (draw_lists_songs s1 songs) as (d & Hd & Hall).
  { unfold window_ok in Hwa. lia. }
  { unfold current_artists. rewrite Hq. cbn [str_truthy].
    unfold window_ok in Hwa. lia. }
  { done. }
  rewrite Hd, Hs. unfold handle_normal_key. rewrite Hq.
  apply directional_cases in Hk as [Hk|[Hk|[Hk|Hk]]]; rewrite Hk;
    cbn [Z.eqb KEY_UP KEY_DOWN KEY_LEFT KEY_RIGHT ord N_of_ascii Z.of_N
         N.add N.mul Pos.eqb andb str_truthy after].
  - simpl.
    pose proof (window_ok_back _ _ _ _ Hwa) as Hb.
    destruct (move_back _ _) as [sel off]. simpl.
    eexists _, _. split; [done|]. by apply nav_ok_song_top.
  - simpl. unfold current_artists. rewrite Hq. cbn [str_truthy].
    pose proof (window_ok_forward _ _ _ _ Hwa) as Hf.
    destruct (move_forward _ _ _ _) as [sel off]. simpl.
    eexists _, _. split; [done|]. by apply nav_ok_song_top.
  - simpl.
    pose proof (window_ok_back _ _ _ _ Hws) as Hb.
    destruct (move_back _ _) as [sel off]. simpl.
    eexists _, _. split; [done|].
    unfold nav_ok. split_and!; try done.
    + destruct Hok as (? & ? & ? & ? & ?). unfold session_ok, window_ok in *.
      simpl in *. split_and!; (done || lia).
    + exists songs. split; [exact Hsongs | exact Hb].
  - simpl.
    assert (window_ok (max_rows (layout s1)) (len songs)
              (move_forward (max_rows (layout s1))
                 (len (all_songs_by_artist d))
                 (selected_song (cursors s1)) (song_offset (cursors s1))).1
              (move_forward (max_rows (layout s1))
                 (len (all_songs_by_artist d))
                 (selected_song (cursors s1)) (song_offset (cursors s1))).2)
      as Hf.
    { destruct Hall as [-> | ->]; [|by apply window_ok_forward].
      rewrite move_forward_empty; [done | |];
        unfold window_ok in Hws; lia. }
    destruct (move_forward _ _ _ _) as [sel off]. simpl.
    eexists _, _. split; [done|].
    unfold nav_ok. split_and!; try done.
    + destruct Hok as (? & ? & ? & ? & ?). unfold session_ok, window_ok in *.
      simpl in *. split_and!; (done || lia).
    + exists songs. split; [exact Hsongs | exact Hf].
Qed.

(** A run on directional keys never leaves the loop and ends in a state
    that satisfies the invariant. *)
Lemma nav_ok_main_loop (obs : list Obs) (s : State) :
  Forall (λ o, is_directional (key o) = true) obs → nav_ok library s →
  ∃ cmds s', main_loop library obs s = (cmds, Running s')
    ∧ nav_ok library s'.
Proof.
  intros Hobs. revert s.
  induction Hobs as [|o obs Ho _ IH]; intros s Hn; simpl.
  - eauto.
  - destruct (nav_ok_tick o s Ho Hn) as (s1 & c1 & -> & Hn1).
    destruct (IH s1 Hn1) as (c2 & s2 & -> & Hn2). simpl. eauto.
Qed.
End Navigation.

(** C2.  For a library with at least one artist in which every artist has
    at least one song, a run of the session from its initial state on any
    sequence of Up, Down, Left and Right keys, at any terminal sizes, keeps
    looping, and in the state it reaches the artist cursor plus the artist
    offset lies between zero and the length of the artist list minus one,
    and the song cursor plus the song offset lies between zero and the
    length of the song list of the artist under the cursor minus one. *)
Theorem navigation_bounds (library : TrackIndex) (h w : Z)
    (obs : list Obs) :
  library ≠ [] →
  (∀ artist albums, (artist, albums) ∈ library → flatten_album albums ≠ []) →
  Forall (λ o, is_directional (key o) = true) obs →
  ∃ cmds s,
    main_ui library h w obs = Some (cmds, Running s)
    ∧ 0 <= selected_artist (cursors s) + artist_offset (cursors s)
        <= len (current_artists library s) - 1
    ∧ ∃ songs,
        songs_under_cursor library s = Some songs
        ∧ 0 <= selected_song (cursors s) + song_offset (cursors s)
            <= len songs - 1.
Proof.
  intros Hne Hsongs Hobs. unfold main_ui.
  destruct library as [|entry rest] eqn:Hl; [done|]. rewrite <-Hl in *.
  cbn [list_truthy].
  destruct (nav_ok_main_loop library Hne Hsongs obs (init_state library h w))
    as (cmds & s & -> & Hn); [done | by apply nav_ok_init |].
  eexists _, s. split; [rewrite Hl; reflexivity|].
  destruct Hn as (_ & _ & Hq & Hwa & songs & Hsu & Hws).
  split.
  - unfold current_artists. rewrite Hq. cbn [str_truthy].
    by apply window_ok_sum in Hwa.
  - exists songs. split; [done | by apply window_ok_sum in Hws].
Qed.

Lemma navigation_bounds_witness :
  ∃ cmds s,
    main_ui sample_library 24 80
      [press KEY_DOWN; press KEY_DOWN; press KEY_RIGHT; press KEY_UP;
       press KEY_RIGHT; press KEY_RIGHT; press KEY_LEFT]
    = Some (cmds, Running s)
    ∧ 0 <= selected_artist (cursors s) + artist_offset (cursors s)
        <= len (current_artists sample_library s) - 1
    ∧ ∃ songs,
        songs_under_cursor sample_library s = Some songs
        ∧ 0 <= selected_song (cursors s) + song_offset (cursors s)
            <= len songs - 1.
Proof.
  apply (navigation_bounds sample_library 24 80).
  - discriminate.
  - intros artist albums Hin. unfold sample_library in Hin.
    repeat (apply elem_of_cons in Hin as [[= -> ->]|Hin];
            [vm_compute; discriminate|]).
    by apply elem_of_nil in Hin.
  - repeat constructor.
Defined.

Example navigation_stops_at_the_last_artist :
  main_ui sample_library 24 80
    [press KEY_DOWN; press KEY_DOWN; press KEY_DOWN]
  = Some ([AudioSetVolume 50],
          Running (with_cursors {| selected_artist := 1; artist_offset := 0;
                                   selected_song := 0; song_offset := 0 |}
                     sample_state)).
Proof. vm_compute. reflexivity. Qed.

(** In a terminal of 12 lines no row is drawn ([max_rows] is 0): Down
    moves the offset instead of the cursor, and Right finds no drawn song
    list and moves nothing. *)
Example navigation_in_a_small_terminal :
  main_ui sample_library 12 80
    [press_small KEY_DOWN; press_small KEY_DOWN; press_small KEY_RIGHT]
  = Some ([AudioSetVolume 50],
          Running (with_cursors {| selected_artist := 0; artist_offset := 1;
                                   selected_song := 0; song_offset := 0 |}
                     (init_state sample_library 12 80))).
Proof. vm_compute. reflexivity. Qed.

(** * Further properties of the code *)

(** ** The search filter: composition and narrowing *)

Lemma str_app_assoc (a b c : string) : (a +:+ b) +:+ c = a +:+ b +:+ c.
Proof. induction a as [|x a IH]; simpl; [done | by rewrite IH]. Qed.

Lemma filter_kept_idem (q : string) (l : TrackIndex) :
  filter (kept q) (filter (kept q) l) = filter (kept q) l.
Proof.
  induction l as [|x l IH]; [done|].
  destruct (decide (kept q x)) as [Hk|Hk].
  - rewrite (filter_cons_True _ _ _ Hk), (filter_cons_True _ _ _ Hk).
    by rewrite IH.
  - by rewrite (filter_cons_False _ _ _ Hk).
Qed.

(** Filtering the filtered index again with the same query changes
    nothing. *)
Theorem search_library_idempotent (library : TrackIndex) (query : string) :
  dict_wf library →
  search_library (search_library library query).1 query
  = search_library library query.
Proof.
  intros Hwf. destruct (decide (query = "")) as [->|Hq]; [done|].
  rewrite (search_library_filter library) by done. cbn [fst].
  rewrite search_library_filter by (done || by apply filter_wf).
  by rewrite filter_kept_idem.
Qed.

Lemma search_library_idempotent_witness :
  dict_wf sample_library
  ∧ search_library (search_library sample_library "mp3").1 "mp3"
    = search_library sample_library "mp3".
Proof.
  split; [exact sample_library_wf|].
  apply (search_library_idempotent sample_library "mp3").
  exact sample_library_wf.
Defined.

Lemma filter_sublist_impl {A} (P Q : A → Prop)
    `{!∀ x, Decision (P x), !∀ x, Decision (Q x)} (l : list A) :
  (∀ x, P x → Q x) → filter P l `sublist_of` filter Q l.
Proof.
  intros HPQ. induction l as [|x l IH]; [done|].
  destruct (decide (P x)) as [HP|HP].
  - rewrite (filter_cons_True P _ _ HP), (filter_cons_True Q _ _ (HPQ _ HP)).
    by constructor.
  - rewrite (filter_cons_False P _ _ HP).
    destruct (decide (Q x)) as [HQ|HQ].
    + rewrite (filter_cons_True Q _ _ HQ). by constructor.
    + by rewrite (filter_cons_False Q _ _ HQ).
Qed.

(** A string that contains a longer needle contains each contiguous piece
    of it. *)
Lemma str_in_piece (a q b s : string) :
  str_in (a +:+ q +:+ b) s = true → str_in q s = true.
Proof.
  rewrite !str_in_spec. intros (pre & post & ->).
  exists (pre +:+ a), (b +:+ post). by rewrite !str_app_assoc.
Qed.

Lemma entry_matches_piece (a q b artist : string) (albums : Albums) :
  entry_matches (lower (a +:+ q +:+ b)) artist albums = true →
  entry_matches (lower q) artist albums = true.
Proof.
  unfold entry_matches. rewrite !lower_app, !orb_true_iff, !existsb_exists.
  intros [H|(song & Hin & H)].
  - left. by eapply str_in_piece.
  - right. exists song. split; [done | by eapply str_in_piece].
Qed.

(** Narrowing: when the query [q] is a contiguous piece of a longer query
    (so also after typing more characters at either end), the longer query
    lists a subsequence of what [q] lists, and keeps a subsequence of the
    entries [q] keeps. *)
Theorem search_library_narrows (library : TrackIndex) (a q b : string) :
  dict_wf library →
  (search_library library (a +:+ q +:+ b)).2
    `sublist_of` (search_library library q).2
  ∧ (search_library library (a +:+ q +:+ b)).1
      `sublist_of` (search_library library q).1.
Proof.
  intros Hwf. destruct (decide (q = "")) as [->|Hq].
  - rewrite (search_library_keys library (a +:+ "" +:+ b)) by done.
    cbn [search_library str_truthy negb fst snd].
    destruct (decide (a +:+ "" +:+ b = "")) as [->|Hq2]; [done|].
    rewrite search_library_filter by done. cbn [fst].
    split; [apply filter_keys_sublist | apply sublist_filter].
  - assert (a +:+ q +:+ b ≠ "") as Hq2.
    { destruct a; simpl; [|done]. by destruct q. }
    rewrite !search_library_filter by done. cbn [fst snd].
    assert (filter (kept (lower (a +:+ q +:+ b))) library
              `sublist_of` filter (kept (lower q)) library) as Hsub.
    { apply filter_sublist_impl. intros [artist albums]. unfold kept.
      apply entry_matches_piece. }
    split; [|done]. unfold dict_keys. by apply fmap_sublist.
Qed.

Lemma search_library_narrows_witness :
  dict_wf sample_library
  ∧ (search_library sample_library ("" +:+ "a" +:+ ".mp3")).2
      `sublist_of` (search_library sample_library "a").2
  ∧ (search_library sample_library ("" +:+ "a" +:+ ".mp3")).1
      `sublist_of` (search_library sample_library "a").1.
Proof.
  split; [exact sample_library_wf|].
  apply (search_library_narrows sample_library "" "a" ".mp3").
  exact sample_library_wf.
Defined.

Example narrowing_on_the_sample :
  (search_library sample_library "a").2 = ["Abba"; "Bjork"]
  ∧ (search_library sample_library "a.mp3").2 = ["Abba"].
Proof. vm_compute. split; reflexivity. Qed.

(** ** Search mode: cancelling, editing the query, and what stays put *)

(** Escape while searching: the session is browsing again, the query is
    empty, the active view is the whole library, both cursors and offsets
    are zero, and the playback fields are untouched. *)
Theorem escape_cancels_search (library : TrackIndex) (o : Obs) (s : State) :
  session_ok s → search_active s = true → key o = 27 →
  ∃ s',
    tick library o s = Continue s' (now_playing o (handle_resize o s))
    ∧ search_active s' = false ∧ search_query s' = ""
    ∧ filtered_library s' = library
    ∧ filtered_artists s' = dict_keys library
    ∧ current_library library s' = library
    ∧ current_artists library s' = dict_keys library
    ∧ cursors s' = top
    ∧ curr_song s' = curr_song s ∧ curr_artist s' = curr_artist s
    ∧ playing s' = playing s ∧ repeat s' = repeat s ∧ volume s' = volume s.
Proof.
  intros Hok Hs Hk. rewrite tick_searching by done.
  eexists. split; [done|].
  destruct (handle_resize_frame o s)
    as (_ & _ & _ & _ & H1 & H2 & H3 & H4 & H5). cbv zeta in *.
  unfold handle_search_key. rewrite Hk. cbn [is_escape Z.eqb Pos.eqb].
  unfold current_library, current_artists. simpl.
  by rewrite H1, H2, H3, H4, H5.
Qed.

Lemma escape_cancels_search_witness :
  (session_ok searching_state ∧ search_active searching_state = true
   ∧ key (press 27) = 27)
  ∧ tick sample_library (press 27) searching_state = Continue sample_state [].
Proof.
  assert (session_ok searching_state) as Hok.
  { unfold session_ok. vm_compute. repeat split; discriminate. }
  split; [split; [exact Hok | split; reflexivity]|].
  destruct (escape_cancels_search sample_library (press 27) searching_state
              Hok eq_refl eq_refl) as (s' & Ht & _).
  rewrite Ht. vm_compute in Ht. injection Ht as <-. vm_compute. reflexivity.
Defined.

Lemma drop_last_snoc (q : string) (c : ascii) :
  drop_last (q +:+ String c "") = q.
Proof.
  induction q as [|x q IH]; [done|]. simpl.
  destruct (q +:+ String c "") eqn:Hq; [by destruct q|].
  by rewrite <-IH.
Qed.

Lemma str_truthy_snoc (q : string) (c : ascii) :
  str_truthy (q +:+ String c "") = true.
Proof. by destruct q. Qed.

(** Editing the query: a printable key followed by a backspace key gives
    back the query as it was, still in search mode; and a backspace on the
    empty query leaves it empty. *)
Theorem type_then_backspace (library : TrackIndex) (o1 o2 : Obs)
    (s : State) :
  session_ok s → search_active s = true →
  is_backspace (key o2) = true →
  (is_printable (key o1) = true →
   ∃ s1 c1 s2 c2,
     tick library o1 s = Continue s1 c1
     ∧ search_query s1 = search_query s +:+ String (chr (key o1)) ""
     ∧ tick library o2 s1 = Continue s2 c2
     ∧ search_query s2 = search_query s ∧ search_active s2 = true)
  ∧ (search_query s = "" →
     ∃ s2 c2,
       tick library o2 s = Continue s2 c2
       ∧ search_query s2 = "" ∧ search_active s2 = true).
Proof.
  intros Hok Hs Hb.
  assert (is_escape (key o2) = false ∧ is_enter (key o2) = false) as [He Hn].
  { unfold is_escape, is_enter, is_backspace, KEY_ENTER, KEY_BACKSPACE in *.
    lia. }
  split.
  - intros Hp.
    assert (is_escape (key o1) = false ∧ is_enter (key o1) = false
            ∧ is_backspace (key o1) = false) as (He1 & Hn1 & Hb1).
    { unfold is_escape, is_enter, is_backspace, is_printable, KEY_ENTER,
        KEY_BACKSPACE in *. lia. }
    destruct (handle_resize_frame o1 s) as (Ha & Hq & _). cbv zeta in *.
    set (s1 := handle_search_key library o1 (handle_resize o1 s)).
    assert (s1 = with_search_query
                   (search_query s +:+ String (chr (key o1)) "")
                   (handle_resize o1 s)) as Hs1.
    { unfold s1, handle_search_key. by rewrite He1, Hn1, Hb1, Hp, Hq. }
    assert (session_ok s1) as Hok1.
    { rewrite Hs1. by apply (session_ok_resize o1) in Hok. }
    assert (search_active s1 = true) as Ha1.
    { rewrite Hs1. simpl. by rewrite Ha. }
    exists s1, (now_playing o1 (handle_resize o1 s)).
    eexists _, _. split; [by apply tick_searching|].
    split; [by rewrite Hs1|].
    split; [by apply tick_searching|].
    destruct (handle_resize_frame o2 s1) as (Ha2 & Hq2 & _). cbv zeta in *.
    assert (search_query s1
            = search_query s +:+ String (chr (key o1)) "") as Hq1.
    { by rewrite Hs1. }
    clearbody s1.
    unfold handle_search_key. rewrite He, Hn, Hb, Hq2, Hq1.
    rewrite str_truthy_snoc, drop_last_snoc. simpl.
    split; [done | by rewrite Ha2].
  - intros Hq0. rewrite tick_searching by done. eexists _, _. split; [done|].
    destruct (handle_resize_frame o2 s) as (Ha2 & Hq2 & _). cbv zeta in *.
    unfold handle_search_key. rewrite He, Hn, Hb, Hq2, Hq0. simpl.
    by rewrite Hq2, Ha2, Hq0, Hs.
Qed.

Lemma type_then_backspace_witness :
  (session_ok searching_state ∧ search_active searching_state = true
   ∧ is_backspace (key (press 127)) = true
   ∧ is_printable (key (press (ord "x"))) = true)
  ∧ ∃ s1 c1 s2 c2,
      tick sample_library (press (ord "x")) searching_state = Continue s1 c1
      ∧ search_query s1
        = search_query searching_state
          +:+ String (chr (key (press (ord "x")))) ""
      ∧ tick sample_library (press 127) s1 = Continue s2 c2
      ∧ search_query s2 = search_query searching_state
      ∧ search_active s2 = true.
Proof.
  assert (session_ok searching_state) as Hok.
  { unfold session_ok. vm_compute. repeat split; discriminate. }
  split; [split; [exact Hok | repeat split]|].
  destruct (type_then_backspace sample_library (press (ord "x")) (press 127)
              searching_state Hok eq_refl eq_refl) as [Hrt _].
  exact (Hrt eq_refl).
Defined.

(** While searching, no key reaches the player or the playback fields: the
    only commands of the iteration are those of the repeat logic, and the
    volume, the repeat and playing flags and the current song and artist are
    unchanged (so [=], [-], [p], [r] and the seek keys are typed, not
    obeyed).  Unless the key is Escape or Enter, the cursors and the
    filtered view are those left by the resize check. *)
Theorem search_mode_frame (library : TrackIndex) (o : Obs) (s : State) :
  session_ok s → search_active s = true →
  ∃ s',
    tick library o s = Continue s' (now_playing o (handle_resize o s))
    ∧ volume s' = volume s ∧ repeat s' = repeat s ∧ playing s' = playing s
    ∧ curr_song s' = curr_song s ∧ curr_artist s' = curr_artist s
    ∧ layout s' = layout (handle_resize o s)
    ∧ (is_escape (key o) = false → is_enter (key o) = false →
       cursors s' = cursors (handle_resize o s)
       ∧ filtered_library s' = filtered_library s
       ∧ filtered_artists s' = filtered_artists s).
Proof.
  intros Hok Hs. rewrite tick_searching by done. eexists. split; [done|].
  destruct (handle_resize_frame o s)
    as (_ & _ & Hfl & Hfa & H1 & H2 & H3 & H4 & H5). cbv zeta in *.
  rewrite <-H1, <-H2, <-H3, <-H4, <-H5, <-Hfl, <-Hfa.
  unfold handle_search_key.
  destruct (is_escape (key o)); [by split_and!|].
  destruct (is_enter (key o)).
  { cbn [with_search_active search_query].
    by destruct (str_truthy _); split_and!. }
  destruct (is_backspace (key o)); [by destruct (str_truthy _)|].
  by destruct (is_printable (key o)).
Qed.

Lemma search_mode_frame_witness :
  (session_ok searching_state ∧ search_active searching_state = true)
  ∧ ∃ s',
      tick sample_library (press (ord "=")) searching_state
      = Continue s' (now_playing (press (ord "="))
                       (handle_resize (press (ord "=")) searching_state))
      ∧ volume s' = volume searching_state.
Proof.
  assert (session_ok searching_state) as Hok.
  { unfold session_ok. vm_compute. repeat split; discriminate. }
  split; [split; [exact Hok | reflexivity]|].
  destruct (search_mode_frame sample_library (press (ord "="))
              searching_state Hok eq_refl) as (s' & Ht & Hv & _).
  exists s'. split; [exact Ht | exact Hv].
Defined.

(** ** The query buffer holds printable ASCII only *)

Lemma ord_chr (k : Z) : 0 <= k < 256 → ord (chr k) = k.
Proof.
  intros Hk. unfold ord, chr.
  rewrite N_ascii_embedding by lia. lia.
Qed.

Lemma all_printable_snoc (q : string) (c : ascii) :
  all_printable q → 32 <= ord c <= 126 →
  all_printable (q +:+ String c "").
Proof. induction q as [|x q IH]; simpl; tauto. Qed.

Lemma all_printable_drop_last (q : string) :
  all_printable q → all_printable (drop_last q).
Proof.
  induction q as [|x q IH]; [done|]. simpl.
  destruct q as [|y q]; [done|]. intros [Hx Hq]. split; [done | by apply IH].
Qed.

Lemma all_printable_search_key (library : TrackIndex) (o : Obs) (s : State) :
  all_printable (search_query s) →
  all_printable (search_query (handle_search_key library o s)).
Proof.
  intros Hq. unfold handle_search_key.
  destruct (is_escape (key o)); [done|].
  destruct (is_enter (key o)).
  { cbn [with_search_active search_query]. by destruct (str_truthy _). }
  destruct (is_backspace (key o)).
  { destruct (str_truthy _); [|done]. by apply all_printable_drop_last. }
  destruct (is_printable (key o)) eqn:Hp; [|done].
  apply all_printable_snoc; [done|].
  unfold is_printable in Hp. rewrite ord_chr; lia.
Qed.

Lemma all_printable_normal_key (library : TrackIndex) (o : Obs) (d : Drawn)
    (s : State) :
  all_printable (search_query s) →
  match handle_normal_key library o d s with
  | Continue s' _ | Break s' _ => all_printable (search_query s')
  | Raise _ => True
  end.
Proof.
  intros Hq. unfold handle_normal_key.
  destruct (key o =? ord "/"); [done|].
  set (s2 := if (key o =? ord "c") && str_truthy (search_query s)
             then clear_filter library s else s).
  assert (all_printable (search_query s2)) as Hq2.
  { unfold s2. by destruct (_ && _). }
  clearbody s2.
  repeat case_match; simplify_eq; simpl; done.
Qed.

Lemma all_printable_tick (library : TrackIndex) (o : Obs) (s : State) :
  all_printable (search_query s) →
  match tick library o s with
  | Continue s' _ | Break s' _ => all_printable (search_query s')
  | Raise _ => True
  end.
Proof.
  intros Hq. unfold tick. cbv zeta.
  destruct (handle_resize_frame o s) as (_ & Hr & _). cbv zeta in Hr.
  rewrite <-Hr in Hq.
  destruct (draw_lists library (handle_resize o s)) as [d|]; [|done].
  destruct (search_active (handle_resize o s)).
  - by apply all_printable_search_key.
  - pose proof (all_printable_normal_key library o d _ Hq) as Hk.
    by destruct (handle_normal_key library o d (handle_resize o s)).
Qed.

Lemma all_printable_main_loop (library : TrackIndex) (obs : list Obs)
    (s : State) :
  all_printable (search_query s) →
  from_option (λ s', all_printable (search_query s')) True
    (last_state (main_loop library obs s)).
Proof.
  revert s. induction obs as [|o obs IH]; intros s Hq; [done|].
  pose proof (all_printable_tick library o s Hq) as Ht. simpl.
  destruct (tick library o s) as [s' c|s' c|c]; [|done|done].
  specialize (IH s' Ht). unfold last_state in *. simpl.
  by destruct (main_loop library obs s').
Qed.

(** Whatever is typed, in every state a session is in or quits from the
    query buffer consists of printable ASCII characters (codes 32 to 126)
    only. *)
Theorem query_buffer_printable (library : TrackIndex) (h w : Z)
    (obs : list Obs) (r : list PlayerCmd * Outcome) (s : State) :
  main_ui library h w obs = Some r → last_state r = Some s →
  all_printable (search_query s).
Proof.
  unfold main_ui. destruct (list_truthy library); [|done].
  intros [= <-] Hs.
  pose proof (all_printable_main_loop library obs (init_state library h w) I)
    as Hp.
  unfold last_state in *. simpl in *.
  destruct (main_loop library obs (init_state library h w)) as [c out].
  simpl in *. by rewrite Hs in Hp.
Qed.

Lemma query_buffer_printable_witness :
  ∃ r s,
    main_ui sample_library 24 80
      [press (ord "/"); press 7; press (ord "a"); press 200; press (ord " ")]
    = Some r
    ∧ last_state r = Some s
    ∧ search_query s = "a "
    ∧ all_printable (search_query s).
Proof.
  eexists _, _. split; [vm_compute; reflexivity|].
  split; [reflexivity|]. split; [reflexivity|].
  eapply (query_buffer_printable sample_library 24 80
            [press (ord "/"); press 7; press (ord "a"); press 200;
             press (ord " ")]).
  - vm_compute. reflexivity.
  - reflexivity.
Defined.

(** ** Browsing: the keys that are not navigation *)

Lemma after_nil (cmds : list PlayerCmd) (s : State) :
  after cmds (Continue s []) = Continue s cmds.
Proof. simpl. by rewrite app_nil_r. Qed.

(** The [/] key while browsing turns search mode on and changes nothing
    else: the query buffer keeps the text of an earlier filter, and the
    cursors and the view stay as the resize check left them. *)
Theorem slash_enters_search (library : TrackIndex) (o : Obs) (s : State) :
  session_ok s → search_active s = false → key o = ord "/" →
  ∃ s',
    tick library o s = Continue s' (now_playing o (handle_resize o s))
    ∧ search_active s' = true ∧ search_query s' = search_query s
    ∧ cursors s' = cursors (handle_resize o s)
    ∧ filtered_library s' = filtered_library s
    ∧ filtered_artists s' = filtered_artists s
    ∧ curr_song s' = curr_song s ∧ curr_artist s' = curr_artist s
    ∧ playing s' = playing s ∧ repeat s' = repeat s ∧ volume s' = volume s.
Proof.
  intros Hok Hs Hk.
  destruct (tick_browsing library o s Hok Hs) as (d & _ & ->).
  destruct (handle_resize_frame o s)
    as (_ & Hq & Hfl & Hfa & H1 & H2 & H3 & H4 & H5). cbv zeta in *.
  unfold handle_normal_key. rewrite Hk, Z.eqb_refl, after_nil.
  eexists. split; [done|]. simpl. by rewrite Hq, Hfl, Hfa, H1, H2, H3, H4, H5.
Qed.

Lemma slash_enters_search_witness :
  (session_ok sample_state ∧ search_active sample_state = false
   ∧ key (press (ord "/")) = ord "/")
  ∧ ∃ s',
      tick sample_library (press (ord "/")) sample_state
      = Continue s' (now_playing (press (ord "/"))
                       (handle_resize (press (ord "/")) sample_state))
      ∧ search_active s' = true.
Proof.
  assert (session_ok sample_state) as Hok.
  { unfold session_ok. vm_compute. repeat split; discriminate. }
  split; [split; [exact Hok | split; reflexivity]|].
  destruct (slash_enters_search sample_library (press (ord "/")) sample_state
              Hok eq_refl eq_refl) as (s' & Ht & Ha & _).
  exists s'. split; [exact Ht | exact Ha].
Defined.

(** The [c] key while browsing: with a query in the buffer the filter is
    dropped (empty query, the whole library as the view, cursors and offsets
    zero); with an empty buffer the key does nothing. *)
Theorem c_clears_filter (library : TrackIndex) (o : Obs) (s : State) :
  session_ok s → search_active s = false → key o = ord "c" →
  ∃ s',
    tick library o s = Continue s' (now_playing o (handle_resize o s))
    ∧ search_active s' = false
    ∧ (search_query s ≠ "" →
       search_query s' = ""
       ∧ current_library library s' = library
       ∧ current_artists library s' = dict_keys library
       ∧ filtered_library s' = library
       ∧ filtered_artists s' = dict_keys library
       ∧ cursors s' = top)
    ∧ (search_query s = "" → s' = handle_resize o s).
Proof.
  intros Hok Hs Hk.
  destruct (tick_browsing library o s Hok Hs) as (d & _ & ->).
  destruct (handle_resize_frame o s) as (Ha & Hq & _). cbv zeta in *.
  unfold handle_normal_key. rewrite Hk, Hq.
  destruct (str_truthy (search_query s)) eqn:Ht.
  - apply str_truthy_true in Ht. simpl. rewrite app_nil_r.
    eexists. split; [done|]. simpl. split; [by rewrite Ha|]. by split.
  - apply str_truthy_false in Ht. simpl. rewrite app_nil_r.
    eexists. split; [done|]. split; [by rewrite Ha|]. by split.
Qed.

Lemma c_clears_filter_witness :
  (session_ok (with_search_active false searching_state)
   ∧ search_active (with_search_active false searching_state) = false
   ∧ key (press (ord "c")) = ord "c")
  ∧ tick sample_library (press (ord "c"))
      (with_search_active false searching_state)
    = Continue sample_state [].
Proof.
  assert (session_ok (with_search_active false searching_state)) as Hok.
  { unfold session_ok. vm_compute. repeat split; discriminate. }
  split; [split; [exact Hok | split; reflexivity]|].
  destruct (c_clears_filter sample_library (press (ord "c"))
              (with_search_active false searching_state)
              Hok eq_refl eq_refl) as (s' & Ht & _).
  rewrite Ht. vm_compute in Ht. by injection Ht as <-.
Defined.

(** The volume, seek, pause and repeat keys while browsing never move a
    cursor, change the mode, the query or the view, or replace the current
    song: of the session fields they touch the volume and the repeat flag
    only. *)
Theorem playback_keys_frame (library : TrackIndex) (o : Obs) (s : State) :
  session_ok s → search_active s = false →
  is_playback_key (key o) = true →
  ∃ s' cmds,
    tick library o s = Continue s' cmds
    ∧ cursors s' = cursors (handle_resize o s)
    ∧ layout s' = layout (handle_resize o s)
    ∧ search_active s' = false ∧ search_query s' = search_query s
    ∧ filtered_library s' = filtered_library s
    ∧ filtered_artists s' = filtered_artists s
    ∧ curr_song s' = curr_song s ∧ curr_artist s' = curr_artist s
    ∧ playing s' = playing s.
Proof.
  intros Hok Hs Hk.
  destruct (tick_browsing library o s Hok Hs) as (d & _ & ->).
  destruct (handle_resize_frame o s)
    as (Ha & Hq & Hfl & Hfa & H1 & H2 & H3 & _). cbv zeta in *.
  rewrite Hs in Ha. rewrite <-Ha, <-Hq, <-Hfl, <-Hfa, <-H1, <-H2, <-H3.
  unfold handle_normal_key, is_playback_key in *.
  change (ord "/") with 47. change (ord "c") with 99.
  change (ord "=") with 61 in *. change (ord "-") with 45 in *.
  change (ord ",") with 44 in *. change (ord ".") with 46 in *.
  change (ord "<") with 60 in *. change (ord ">") with 62 in *.
  change (ord "p") with 112 in *. change (ord "r") with 114 in *.
  unfold KEY_UP, KEY_DOWN, KEY_LEFT, KEY_RIGHT, is_enter, KEY_ENTER.
  destruct (key o =? 47) eqn:?; [lia|].
  destruct (key o =? 99) eqn:?; [lia|]. cbn [andb].
  destruct (key o =? 259) eqn:?; [lia|].
  destruct (key o =? 258) eqn:?; [lia|].
  destruct (key o =? 260) eqn:?; [lia|].
  destruct (key o =? 261) eqn:?; [lia|].
  destruct ((key o =? 343) || (key o =? 10) || (key o =? 13)) eqn:?; [lia|].
  repeat case_match; try lia; simpl; eexists _, _; (split; [done|]); simpl;
    by split_and!.
Qed.

Lemma playback_keys_frame_witness :
  (session_ok scrolled_state ∧ search_active scrolled_state = false
   ∧ is_playback_key (key (press_in 30 100 (ord "r"))) = true)
  ∧ ∃ s' cmds,
      tick sample_library (press_in 30 100 (ord "r")) scrolled_state
      = Continue s' cmds
      ∧ cursors s' = cursors scrolled_state.
Proof.
  assert (session_ok scrolled_state) as Hok.
  { unfold session_ok. vm_compute. repeat split; discriminate. }
  split; [split; [exact Hok | split; reflexivity]|].
  destruct (playback_keys_frame sample_library (press_in 30 100 (ord "r"))
              scrolled_state Hok eq_refl eq_refl)
    as (s' & cmds & Ht & Hc & _).
  exists s', cmds. split; [exact Ht | exact Hc].
Defined.

(** ** Repeat, and the playback flags *)

(** An iteration in which no key arrives ([getch] gives -1), in either
    mode, changes nothing beyond the resize check.  Its only commands are
    those of the repeat logic: when a current song and artist are set, repeat
    is on and the player reports the end of the track, it stops the player
    and loads and plays the same song again; when repeat is off or the track
    has not ended, it sends nothing. *)
Theorem idle_tick_repeats (library : TrackIndex) (o : Obs) (s : State) :
  session_ok s → key o = -1 →
  tick library o s
  = Continue (handle_resize o s) (now_playing o (handle_resize o s))
  ∧ (∀ song,
       curr_song s = Some song → song ≠ "" →
       opt_truthy (curr_artist s) = true →
       repeat s = true → player_ended o = true →
       now_playing o (handle_resize o s)
       = [PlayerStop; SetMedia song; PlayerPlay])
  ∧ (repeat s = false ∨ player_ended o = false →
     now_playing o (handle_resize o s) = []).
Proof.
  intros Hok Hk.
  destruct (handle_resize_frame o s)
    as (_ & _ & _ & _ & H1 & H2 & _ & H4 & _). cbv zeta in *.
  split_and!.
  - destruct (search_active s) eqn:Hs.
    + rewrite tick_searching by done. f_equal.
      unfold handle_search_key. by rewrite Hk.
    + destruct (tick_browsing library o s Hok Hs) as (d & _ & ->).
      unfold handle_normal_key. rewrite Hk. simpl. by rewrite app_nil_r.
  - intros song Hsong Hne Hart Hrep Hend. unfold now_playing.
    rewrite H1, H2, H4, Hsong, Hart, Hrep, Hend.
    apply str_truthy_true in Hne. by rewrite Hne.
  - intros Hoff. unfold now_playing. rewrite H4.
    destruct (curr_song (handle_resize o s)) as [song|]; [|done].
    destruct (str_truthy song && _); [|done].
    by destruct Hoff as [-> | ->]; rewrite ?andb_false_r.
Qed.

Lemma idle_tick_repeats_witness :
  (session_ok (with_repeat true playing_state) ∧ key (press (-1)) = -1)
  ∧ tick sample_library
      {| new_height := 24; new_width := 80; player_ended := true;
         key := -1; player_time := 0; player_length := 0 |}
      (with_repeat true playing_state)
    = Continue (with_repeat true playing_state)
        [PlayerStop; SetMedia "/music/Abba/Arrival/a.mp3"; PlayerPlay].
Proof.
  assert (session_ok (with_repeat true playing_state)) as Hok.
  { unfold session_ok. vm_compute. repeat split; discriminate. }
  split; [split; [exact Hok | reflexivity]|].
  destruct (idle_tick_repeats sample_library
              {| new_height := 24; new_width := 80; player_ended := true;
                 key := -1; player_time := 0; player_length := 0 |}
              (with_repeat true playing_state) Hok eq_refl) as (Ht & _).
  rewrite Ht. vm_compute. reflexivity.
Defined.

(** No iteration clears the playing flag or forgets the current song: once
    a song has been started, [playing] stays true through every key, the
    pause key included. *)
Theorem playing_is_never_cleared (library : TrackIndex) (o : Obs)
    (s : State) :
  playing s = true → is_Some (curr_song s) →
  match tick library o s with
  | Continue s' _ | Break s' _ => playing s' = true ∧ is_Some (curr_song s')
  | Raise _ => True
  end.
Proof.
  intros Hp Hc.
  destruct (handle_resize_frame o s)
    as (_ & _ & _ & _ & H1 & _ & H3 & _). cbv zeta in *.
  rewrite <-H1 in Hc. rewrite <-H3 in Hp.
  unfold tick. cbv zeta.
  destruct (draw_lists library (handle_resize o s)) as [d|]; [|done].
  destruct (search_active (handle_resize o s)).
  - unfold handle_search_key.
    repeat case_match; simpl; done.
  - unfold handle_normal_key, after.
    repeat case_match; simplify_eq; simpl; done.
Qed.

Lemma playing_is_never_cleared_witness :
  (playing playing_state = true ∧ is_Some (curr_song playing_state))
  ∧ match tick sample_library (press (ord "p")) playing_state with
    | Continue s' _ | Break s' _ =>
        playing s' = true ∧ is_Some (curr_song s')
    | Raise _ => True
    end.
Proof.
  split; [split; [reflexivity | by eexists]|].
  exact (playing_is_never_cleared sample_library (press (ord "p"))
           playing_state eq_refl (ex_intro _ _ eq_refl)).
Defined.

Example pause_leaves_playing_set :
  tick sample_library (press (ord "p")) playing_state
  = Continue playing_state [PlayerPause].
Proof. vm_compute. reflexivity. Qed.

Lemma track_ok_tick (library : TrackIndex) (o : Obs) (s : State) :
  track_ok s →
  match tick library o s with
  | Continue s' _ | Break s' _ => track_ok s'
  | Raise _ => True
  end.
Proof.
  intros Ht.
  assert (track_ok (handle_resize o s)) as Ht1.
  { destruct (handle_resize_frame o s)
      as (_ & _ & _ & _ & H1 & H2 & H3 & _). cbv zeta in *.
    unfold track_ok. by rewrite H1, H2, H3. }
  unfold tick. cbv zeta.
  destruct (draw_lists library (handle_resize o s)) as [d|]; [|done].
  destruct (search_active (handle_resize o s)).
  - unfold handle_search_key.
    repeat case_match; simpl; done.
  - unfold handle_normal_key, after.
    repeat case_match; simplify_eq; simpl; try done.
    all: unfold track_ok; simpl; split; split; by eauto.
Qed.

Lemma track_ok_main_loop (library : TrackIndex) (obs : list Obs) (s : State) :
  track_ok s →
  from_option track_ok True (last_state (main_loop library obs s)).
Proof.
  revert s. induction obs as [|o obs IH]; intros s Hq; [done|].
  pose proof (track_ok_tick library o s Hq) as Ht. simpl.
  destruct (tick library o s) as [s' c|s' c|c]; [|done|done].
  specialize (IH s' Ht). unfold last_state in *. simpl.
  by destruct (main_loop library obs s').
Qed.

(** In every state a session is in or quits from, the playing flag is set
    exactly when a current song is recorded, and a current song is recorded
    exactly when a current artist is. *)
Theorem playing_iff_current_song (library : TrackIndex) (h w : Z)
    (obs : list Obs) (r : list PlayerCmd * Outcome) (s : State) :
  main_ui library h w obs = Some r → last_state r = Some s →
  (playing s = true ↔ is_Some (curr_song s))
  ∧ (is_Some (curr_song s) ↔ is_Some (curr_artist s)).
Proof.
  unfold main_ui. destruct (list_truthy library); [|done].
  intros [= <-] Hs.
  assert (track_ok (init_state library h w)) as H0.
  { unfold track_ok. simpl. split; split; (done || by intros [? ?]). }
  pose proof (track_ok_main_loop library obs _ H0) as Hp.
  unfold last_state in *. simpl in *.
  destruct (main_loop library obs (init_state library h w)) as [c out].
  simpl in *. by rewrite Hs in Hp.
Qed.

Lemma playing_iff_current_song_witness :
  ∃ r s,
    main_ui sample_library 24 80 [press KEY_DOWN; press 10; press (ord "p")]
    = Some r
    ∧ last_state r = Some s
    ∧ curr_song s = Some "/music/Bjork/Debut/Human.mp3"
    ∧ (playing s = true ↔ is_Some (curr_song s))
    ∧ (is_Some (curr_song s) ↔ is_Some (curr_artist s)).
Proof.
  eexists _, _. split; [vm_compute; reflexivity|].
  split; [reflexivity|]. split; [reflexivity|].
  eapply (playing_iff_current_song sample_library 24 80
            [press KEY_DOWN; press 10; press (ord "p")]).
  - vm_compute. reflexivity.
  - reflexivity.
Defined.

(** ** The drawn page and the cursor *)

Lemma list_truthy_len {A} (l : list A) : list_truthy l = true ↔ 0 < len l.
Proof. unfold len. destruct l; simpl; split; (done || lia). Qed.

(** A page of [rows] rows cut at a position of the list holds [rows]
    items, or what is left of the list. *)
Lemma py_slice_len {A} (l : list A) (start rows : Z) :
  0 <= start <= len l → 0 <= rows →
  len (py_slice l start (start + rows)) = Z.min rows (len l - start).
Proof.
  unfold len, py_slice, slice_bound, len. intros Hs Hr.
  destruct (Z.ltb_spec start 0); [lia|].
  destruct (Z.ltb_spec (start + rows) 0); [lia|].
  rewrite length_take, length_drop. lia.
Qed.

(** In a state that satisfies the navigation invariant and has at least
    one row to draw in, the drawing code draws a page that contains both
    cursors: the row under the artist cursor shows the artist at
    [selected_artist + artist_offset], the song list is that artist's, and
    the row under the song cursor shows the song at
    [selected_song + song_offset]. *)
Lemma draw_lists_page (library : TrackIndex) (s : State) :
  nav_ok library s → 1 <= max_rows (layout s) →
  ∃ d artist songs song,
    draw_lists library s = Some d
    ∧ visible_artists d
      = py_slice (dict_keys library) (artist_offset (cursors s))
          (artist_offset (cursors s) + max_rows (layout s))
    ∧ 0 <= selected_artist (cursors s) < len (visible_artists d)
    ∧ len (visible_artists d) <= max_rows (layout s)
    ∧ py_index (visible_artists d) (selected_artist (cursors s)) = Some artist
    ∧ py_index (dict_keys library) (artist_position s) = Some artist
    ∧ songs_under_cursor library s = Some songs
    ∧ all_songs_by_artist d = songs
    ∧ visible_songs d
      = py_slice songs (song_offset (cursors s))
          (song_offset (cursors s) + max_rows (layout s))
    ∧ 0 <= selected_song (cursors s) < len (visible_songs d)
    ∧ len (visible_songs d) <= max_rows (layout s)
    ∧ py_index (visible_songs d) (selected_song (cursors s)) = Some song
    ∧ py_index songs (song_position s) = Some song.
Proof.
  intros (Hok & Hs & Hq & Hwa & songs & Hsongs & Hws) Hrows.
  unfold window_ok in Hwa, Hws. cbv zeta in Hwa, Hws.
  set (rows := max_rows (layout s)) in *.
  set (keys := dict_keys library) in *.
  set (c := cursors s) in *.
  assert (len (py_slice keys (artist_offset c) (artist_offset c + rows))
          = Z.min rows (len keys - artist_offset c)) as Hlen
    by (apply py_slice_len; lia).
  assert (len (py_slice songs (song_offset c) (song_offset c + rows))
          = Z.min rows (len songs - song_offset c)) as Hlens
    by (apply py_slice_len; lia).
  unfold songs_under_cursor, current_artists, current_library in Hsongs.
  rewrite Hq in Hsongs. cbn [str_truthy] in Hsongs. fold keys c in Hsongs.
  destruct (py_index keys (selected_artist c + artist_offset c))
    as [artist|] eqn:Hart; [|done].
  cbn [mbind option_bind] in Hsongs.
  destruct (dict_get artist library) as [albums|] eqn:Hal; [|done].
  cbn [mbind option_bind] in Hsongs. injection Hsongs as Hsongs.
  destruct (py_index_in_range songs (selected_song c + song_offset c))
    as (song & Hsong & _); [lia|].
  unfold draw_lists, current_artists, current_library. cbv zeta.
  rewrite Hq. cbn [str_truthy]. fold keys c rows.
  assert (list_truthy
            (py_slice keys (artist_offset c) (artist_offset c + rows))
          && (selected_artist c
              <? len (py_slice keys (artist_offset c)
                        (artist_offset c + rows))) = true) as ->.
  { apply andb_true_iff. split; [apply list_truthy_len|]; lia. }
  rewrite py_slice_index by lia. rewrite Hart. cbn [mbind option_bind].
  rewrite Hal. cbn [mbind option_bind]. rewrite Hsongs.
  eexists _, artist, songs, song. split; [done|]. cbn [visible_artists
    all_songs_by_artist visible_songs].
  split_and!; try (done || lia).
  - by rewrite py_slice_index by lia.
  - unfold songs_under_cursor, current_artists, current_library.
    rewrite Hq. cbn [str_truthy]. fold keys c. rewrite Hart.
    cbn [mbind option_bind]. rewrite Hal. cbn [mbind option_bind].
    by rewrite Hsongs.
  - by rewrite py_slice_index by lia.
Qed.

(** ** Enter plays the song under the cursor *)

(** The result of an iteration with Enter in a state whose page holds both
    cursors. *)
Lemma enter_key_tick (library : TrackIndex) (o : Obs)
    (s : State) :
  nav_ok library s → 1 <= max_rows (layout s) →
  (new_height o, new_width o) = (height (layout s), width (layout s)) →
  is_enter (key o) = true →
  ∃ artist songs song,
    py_index (dict_keys library) (artist_position s) = Some artist
    ∧ songs_under_cursor library s = Some songs
    ∧ py_index songs (song_position s) = Some song
    ∧ tick library o s
      = Continue (with_now_playing song artist s)
          (now_playing o s ++ [SetMedia song; PlayerPlay]).
Proof.
  intros Hn Hrows Hsame Hk.
  destruct (draw_lists_page library s Hn Hrows)
    as (d & artist & songs & song & Hd & _ & Hia & _ & Ha & Hpa & Hsongs
        & _ & _ & His & _ & Hso & Hps).
  destruct Hn as (_ & Hs & _).
  exists artist, songs, song. split_and!; [done..|].
  unfold tick. cbv zeta. rewrite (handle_resize_same o s Hsame), Hd, Hs.
  unfold handle_normal_key.
  unfold is_enter, KEY_ENTER in Hk.
  change (ord "/") with 47. change (ord "c") with 99.
  unfold KEY_UP, KEY_DOWN, KEY_LEFT, KEY_RIGHT.
  destruct (key o =? 47) eqn:?; [lia|].
  destruct (key o =? 99) eqn:?; [lia|]. cbn [andb].
  destruct (key o =? 259) eqn:?; [lia|].
  destruct (key o =? 258) eqn:?; [lia|].
  destruct (key o =? 260) eqn:?; [lia|].
  destruct (key o =? 261) eqn:?; [lia|].
  unfold is_enter, KEY_ENTER. rewrite Hk.
  assert (list_truthy (visible_songs d)
          && (selected_song (cursors s) <? len (visible_songs d)) = true)
    as ->.
  { apply andb_true_iff. split; [apply list_truthy_len|]; lia. }
  assert (list_truthy (visible_artists d)
          && (selected_artist (cursors s) <? len (visible_artists d)) = true)
    as ->.
  { apply andb_true_iff. split; [apply list_truthy_len|]; lia. }
  by rewrite Hso, Ha.
Qed.

(** In a state that satisfies the navigation invariant [nav_ok] (the
    session is browsing with an empty query, and for the artist list and for
    the song list of the artist under the cursor the cursor is within the
    page and the offset within what the page leaves over), with at least one
    row drawn and no resize pending, Enter records the song at
    [selected_song + song_offset] of the artist at
    [selected_artist + artist_offset] as the current song, that artist as the
    current artist, sets the playing flag, and has the player load and play
    that song.  The invariant holds in the initial state and is kept by the
    directional keys ([nav_ok_main_loop]); it is not kept by every key
    ([stale_song_cursor_after_emptied_query]). *)
Theorem enter_plays_song_under_cursor (library : TrackIndex) (o : Obs)
    (s : State) :
  nav_ok library s → 1 <= max_rows (layout s) →
  (new_height o, new_width o) = (height (layout s), width (layout s)) →
  is_enter (key o) = true →
  ∃ artist songs song,
    py_index (dict_keys library) (artist_position s) = Some artist
    ∧ songs_under_cursor library s = Some songs
    ∧ py_index songs (song_position s) = Some song
    ∧ tick library o s
      = Continue (with_now_playing song artist s)
          (now_playing o s ++ [SetMedia song; PlayerPlay]).
Proof. apply enter_key_tick. Qed.

Lemma sample_nav_ok (c : Cursors) :
  (c = top
   ∨ c = {| selected_artist := 0; artist_offset := 0;
            selected_song := 1; song_offset := 0 |}) →
  nav_ok sample_library (with_cursors c sample_state).
Proof.
  intros [-> | ->]; unfold nav_ok.
  all: split; [unfold session_ok; vm_compute; repeat split; discriminate|].
  all: split; [reflexivity|]. all: split; [reflexivity|].
  all: split; [unfold window_ok; vm_compute; repeat split; discriminate|].
  all: eexists; split; [vm_compute; reflexivity|].
  all: unfold window_ok; vm_compute; repeat split; discriminate.
Qed.

Lemma enter_plays_song_under_cursor_witness :
  tick sample_library (press 10)
    (with_cursors {| selected_artist := 0; artist_offset := 0;
                     selected_song := 1; song_offset := 0 |} sample_state)
  = Continue
      (with_now_playing "/music/Abba/Arrival/b.mp3" "Abba"
         (with_cursors {| selected_artist := 0; artist_offset := 0;
                          selected_song := 1; song_offset := 0 |}
            sample_state))
      [SetMedia "/music/Abba/Arrival/b.mp3"; PlayerPlay].
Proof.
  destruct (enter_plays_song_under_cursor sample_library (press 10)
              (with_cursors {| selected_artist := 0; artist_offset := 0;
                               selected_song := 1; song_offset := 0 |}
                 sample_state))
    as (artist & songs & song & Ha & Hs & Hso & Ht).
  - apply sample_nav_ok. by right.
  - vm_compute. discriminate.
  - reflexivity.
  - reflexivity.
  - rewrite Ht. vm_compute in Ha, Hs, Hso.
    injection Ha as <-. injection Hs as <-. injection Hso as <-.
    reflexivity.
Defined.

(** In a terminal of 12 lines ([max_rows] is 0) nothing is drawn, and
    Enter neither records a song nor reaches the player. *)
Example enter_in_a_small_terminal :
  tick sample_library (press_small 10) (init_state sample_library 12 80)
  = Continue (init_state sample_library 12 80) [].
Proof. vm_compute. reflexivity. Qed.

(** ** The highlighted rows *)

Lemma artist_rows_from_none (i rows selected : Z) (l : list string) :
  selected < i → highlighted (artist_rows_from i rows selected l) = [].
Proof.
  revert i. induction l as [|x l IH]; intros i Hi; [done|]. simpl.
  destruct (rows <=? i); [done|].
  unfold highlighted. rewrite filter_cons_False.
  - apply IH. lia.
  - simpl. destruct (Z.eqb_spec selected i); [lia | done].
Qed.

Lemma artist_rows_from_one (i rows selected : Z) (l : list string)
    (x : string) :
  i <= selected → i + len l <= rows →
  l !! Z.to_nat (selected - i) = Some x →
  highlighted (artist_rows_from i rows selected l) = [x].
Proof.
  unfold len. revert i. induction l as [|y l IH]; intros i Hi Hr Hx; [done|].
  simpl in *. destruct (Z.leb_spec rows i); [lia|].
  unfold highlighted. destruct (Z.eqb_spec selected i) as [->|Hne].
  - rewrite filter_cons_True by done.
    replace (Z.to_nat (i - i)) with O in Hx by lia. injection Hx as ->.
    rewrite fmap_cons. f_equal. apply artist_rows_from_none. lia.
  - rewrite filter_cons_False by done. apply IH; [lia..|].
    replace (Z.to_nat (selected - i)) with (S (Z.to_nat (selected - (i + 1))))
      in Hx by lia.
    done.
Qed.

Lemma artist_rows_from_y (i rows selected : Z) (l : list string) :
  0 <= i →
  Forall (λ r, 1 <= at_y r <= rows) (artist_rows_from i rows selected l).
Proof.
  revert i. induction l as [|y l IH]; intros i Hi; [constructor|]. simpl.
  destruct (Z.leb_spec rows i); [constructor|].
  constructor; [simpl; lia | apply IH; lia].
Qed.

Lemma song_rows_from_none (i selected : Z) (l : list string) :
  selected < i → highlighted (song_rows_from i selected l) = [].
Proof.
  revert i. induction l as [|x l IH]; intros i Hi; [done|]. simpl.
  unfold highlighted. rewrite filter_cons_False.
  - apply IH. lia.
  - simpl. destruct (Z.eqb_spec i selected); [lia | done].
Qed.

Lemma song_rows_from_one (i selected : Z) (l : list string) (x : string) :
  i <= selected → l !! Z.to_nat (selected - i) = Some x →
  highlighted (song_rows_from i selected l) = [basename x].
Proof.
  revert i. induction l as [|y l IH]; intros i Hi Hx; [done|].
  simpl in *. unfold highlighted.
  destruct (Z.eqb_spec i selected) as [->|Hne].
  - rewrite filter_cons_True by done.
    replace (Z.to_nat (selected - selected)) with O in Hx by lia.
    injection Hx as ->.
    rewrite fmap_cons. f_equal. apply song_rows_from_none. lia.
  - rewrite filter_cons_False by done. apply IH; [lia|].
    replace (Z.to_nat (selected - i)) with (S (Z.to_nat (selected - (i + 1))))
      in Hx by lia.
    done.
Qed.

Lemma song_rows_from_y (i selected : Z) (l : list string) :
  0 <= i →
  Forall (λ r, 1 <= at_y r <= i + len l) (song_rows_from i selected l).
Proof.
  unfold len. revert i. induction l as [|y l IH]; intros i Hi; [constructor|].
  simpl length. constructor; [simpl; lia|].
  eapply Forall_impl; [apply IH; lia|]. simpl. intros r. lia.
Qed.

(** In a state that satisfies the navigation invariant [nav_ok] (the
    session is browsing with an empty query, and for the artist list and for
    the song list of the artist under the cursor the cursor is within the
    page and the offset within what the page leaves over), with at least one
    row drawn, exactly one artist row and exactly one song row are
    highlighted: the artist at [selected_artist + artist_offset], and the
    basename of the song at [selected_song + song_offset], the song that
    Enter would play.  Every row is written on a line from 1 to [max_rows],
    inside the border of its window.  The invariant holds in the initial
    state and is kept by the directional keys ([nav_ok_main_loop]); where it
    fails no song row need be highlighted
    ([stale_song_cursor_after_emptied_query]). *)
Theorem highlighted_rows_are_under_cursor (library : TrackIndex)
    (s : State) :
  nav_ok library s → 1 <= max_rows (layout s) →
  ∃ d artist songs song,
    draw_lists library s = Some d
    ∧ py_index (dict_keys library) (artist_position s) = Some artist
    ∧ songs_under_cursor library s = Some songs
    ∧ py_index songs (song_position s) = Some song
    ∧ highlighted (artist_rows d s) = [artist]
    ∧ highlighted (song_rows d s) = [basename song]
    ∧ Forall (λ r, 1 <= at_y r <= max_rows (layout s))
        (artist_rows d s ++ song_rows d s).
Proof.
  intros Hn Hrows.
  destruct (draw_lists_page library s Hn Hrows)
    as (d & artist & songs & song & Hd & _ & Hia & Hla & Ha & Hpa & Hsongs
        & _ & _ & His & Hls & Hso & Hps).
  exists d, artist, songs, song. split_and!; [done..| | |].
  - unfold artist_rows. apply artist_rows_from_one; [lia | lia|].
    rewrite py_index_nonneg in Ha by lia. by rewrite Z.sub_0_r.
  - unfold song_rows. apply song_rows_from_one; [lia|].
    rewrite py_index_nonneg in Hso by lia. by rewrite Z.sub_0_r.
  - apply Forall_app. split.
    + apply artist_rows_from_y. lia.
    + unfold song_rows. eapply Forall_impl; [apply song_rows_from_y; lia|].
      simpl. intros r. lia.
Qed.

Lemma highlighted_rows_are_under_cursor_witness :
  ∃ d,
    draw_lists sample_library
      (with_cursors {| selected_artist := 0; artist_offset := 0;
                       selected_song := 1; song_offset := 0 |} sample_state)
    = Some d
    ∧ highlighted
        (artist_rows d
           (with_cursors {| selected_artist := 0; artist_offset := 0;
                            selected_song := 1; song_offset := 0 |}
              sample_state)) = ["Abba"]
    ∧ highlighted
        (song_rows d
           (with_cursors {| selected_artist := 0; artist_offset := 0;
                            selected_song := 1; song_offset := 0 |}
              sample_state)) = ["b.mp3"].
Proof.
  destruct (highlighted_rows_are_under_cursor sample_library
              (with_cursors {| selected_artist := 0; artist_offset := 0;
                               selected_song := 1; song_offset := 0 |}
                 sample_state))
    as (d & artist & songs & song & Hd & Ha & Hs & Hso & Hha & Hhs & _).
  - apply sample_nav_ok. by right.
  - vm_compute. discriminate.
  - exists d. vm_compute in Ha, Hs, Hso.
    injection Ha as <-. injection Hs as <-. injection Hso as <-.
    split; [exact Hd|]. split; [exact Hha | exact Hhs].
Defined.

(** ** [draw_list] *)

Lemma draw_list_from_inline (i offset selected rows : Z) (l : list string) :
  i + len l <= rows →
  draw_list_from i offset (selected + offset) l
  = artist_rows_from i rows selected l.
Proof.
  unfold len. revert i. induction l as [|x l IH]; intros i Hr; [done|].
  simpl in *. destruct (Z.leb_spec rows i); [lia|].
  rewrite IH by lia. do 2 f_equal.
  destruct (Z.eqb_spec (i + offset) (selected + offset)),
    (Z.eqb_spec selected i); (done || lia).
Qed.

(** [draw_list] takes the cursor as a position in the whole list, where
    the loop of [main_ui] takes it as a row of the page: for an offset inside
    the list and a page size that is not negative,
    [draw_list(items, offset, selected + offset, max_rows)] writes exactly
    the rows that the artist loop of [main_ui] writes for the cursor
    [selected].  So it highlights the item at its [selected] argument when
    that lies on the page, and nothing otherwise. *)
Theorem draw_list_matches_inline (items : list string)
    (offset selected max_rows : Z) :
  0 <= offset <= len items → 0 <= max_rows →
  draw_list items offset (selected + offset) max_rows
  = artist_rows_from 0 max_rows selected
      (py_slice items offset (offset + max_rows))
  ∧ (∀ x, 0 <= selected < max_rows →
          py_index items (selected + offset) = Some x →
          highlighted (draw_list items offset (selected + offset) max_rows)
          = [x])
  ∧ (selected < 0 →
     highlighted (draw_list items offset (selected + offset) max_rows) = []).
Proof.
  intros Ho Hr.
  assert (len (py_slice items offset (offset + max_rows))
          = Z.min max_rows (len items - offset)) as Hlen
    by (by apply py_slice_len).
  assert (draw_list items offset (selected + offset) max_rows
          = artist_rows_from 0 max_rows selected
              (py_slice items offset (offset + max_rows))) as Heq.
  { unfold draw_list. apply draw_list_from_inline. lia. }
  rewrite Heq. split_and!; [done| |].
  - intros x Hs Hx.
    assert (selected + offset < len items) as Hin.
    { rewrite py_index_nonneg in Hx by lia.
      apply lookup_lt_Some in Hx. unfold len. lia. }
    apply artist_rows_from_one; [lia | lia|].
    rewrite Z.sub_0_r, <-py_index_nonneg by lia.
    rewrite py_slice_index by lia. done.
  - intros Hs. apply artist_rows_from_none. lia.
Qed.

Lemma draw_list_matches_inline_witness :
  (0 <= 1 <= len ["a"; "b"; "c"; "d"] ∧ 0 <= 2)
  ∧ draw_list ["a"; "b"; "c"; "d"] 1 (1 + 1) 2
    = [ {| at_y := 1; at_x := 2; text := "b"; attr := A_NORMAL |};
        {| at_y := 2; at_x := 2; text := "c"; attr := A_STANDOUT |} ].
Proof.
  split; [vm_compute; repeat split; discriminate|].
  destruct (draw_list_matches_inline ["a"; "b"; "c"; "d"] 1 1 2)
    as (Heq & _).
  - vm_compute. repeat split; discriminate.
  - vm_compute. discriminate.
  - rewrite Heq. vm_compute. reflexivity.
Defined.

(** ** Navigation moves one position at a time *)

Lemma move_forward_position (rows n selected offset : Z) :
  window_ok rows n selected offset →
  (move_forward rows n selected offset).1
  + (move_forward rows n selected offset).2
  = Z.min (selected + offset + 1) (n - 1).
Proof.
  unfold window_ok, move_forward. intros H.
  destruct (selected <? Z.min (rows - 1) (n - 1)) eqn:?; [simpl; lia|].
  destruct (selected + offset <? n - 1) eqn:?; simpl; lia.
Qed.

Lemma move_back_position (selected offset : Z) :
  0 <= selected → 0 <= offset →
  (move_back selected offset).1 + (move_back selected offset).2
  = Z.max (selected + offset - 1) 0.
Proof.
  unfold move_back. intros Hs Ho.
  destruct (0 <? selected) eqn:?; [simpl; lia|].
  destruct (0 <? selected + offset) eqn:?; simpl; lia.
Qed.

Section NavigationSteps.
Variable library : TrackIndex.
Hypothesis library_nonempty : library ≠ [].
Hypothesis every_artist_has_songs :
  ∀ artist albums, (artist, albums) ∈ library → flatten_album albums ≠ [].

(** The result of an iteration with Up or Down and no resize pending. *)
Lemma artist_key_tick (o : Obs) (s : State) :
  nav_ok library s →
  (new_height o, new_width o) = (height (layout s), width (layout s)) →
  (key o = KEY_UP →
   tick library o s
   = Continue
       (with_cursors
          {| selected_artist :=
               (move_back (selected_artist (cursors s))
                  (artist_offset (cursors s))).1;
             artist_offset :=
               (move_back (selected_artist (cursors s))
                  (artist_offset (cursors s))).2;
             selected_song := 0; song_offset := 0 |} s)
       (now_playing o s))
  ∧ (key o = KEY_DOWN →
     tick library o s
     = Continue
         (with_cursors
            {| selected_artist :=
                 (move_forward (max_rows (layout s))
                    (len (dict_keys library))
                    (selected_artist (cursors s))
                    (artist_offset (cursors s))).1;
               artist_offset :=
                 (move_forward (max_rows (layout s))
                    (len (dict_keys library))
                    (selected_artist (cursors s))
                    (artist_offset (cursors s))).2;
               selected_song := 0; song_offset := 0 |} s)
         (now_playing o s)).
Proof.
  intros (Hok & Hs & Hq & Hwa & songs & Hsongs & Hws) Hsame.
  destruct (draw_lists_ok library s Hok) as [d Hd].
  unfold tick. cbv zeta. rewrite (handle_resize_same o s Hsame), Hd, Hs.
  unfold handle_normal_key, current_artists. rewrite Hq.
  split; intros ->; simpl.
  - destruct (move_back _ _). simpl. by rewrite app_nil_r.
  - rewrite Hq. cbn [str_truthy].
    destruct (move_forward _ _ _ _). simpl. by rewrite app_nil_r.
Qed.

(** While browsing the unfiltered library with no resize pending, Down
    moves the artist position [selected_artist + artist_offset] one step
    towards the last artist and stops there, Up one step towards the first
    and stops there; both leave the song position at zero. *)
Theorem artist_keys_step (o : Obs) (s : State) :
  nav_ok library s →
  (new_height o, new_width o) = (height (layout s), width (layout s)) →
  (key o = KEY_DOWN →
   ∃ s' cmds,
     tick library o s = Continue s' cmds ∧ nav_ok library s'
     ∧ artist_position s'
       = Z.min (artist_position s + 1) (len (dict_keys library) - 1)
     ∧ song_position s' = 0)
  ∧ (key o = KEY_UP →
     ∃ s' cmds,
       tick library o s = Continue s' cmds ∧ nav_ok library s'
       ∧ artist_position s' = Z.max (artist_position s - 1) 0
       ∧ song_position s' = 0).
Proof.
  intros Hn Hsame.
  destruct (artist_key_tick o s Hn Hsame) as [Hup Hdown].
  pose proof Hn as (Hok & Hs & Hq & Hwa & _).
  split; intros Hk.
  - eexists _, _. split; [by apply Hdown|].
    split; [|split; [|done]].
    + apply nav_ok_song_top; try done. by apply window_ok_forward.
    + unfold artist_position. simpl. by apply move_forward_position.
  - eexists _, _. split; [by apply Hup|].
    split; [|split; [|done]].
    + apply nav_ok_song_top; try done. by apply window_ok_back.
    + unfold artist_position. simpl.
      unfold window_ok in Hwa. apply move_back_position; lia.
Qed.

(** The same for the songs of the artist under the cursor, in a state that
    satisfies the navigation invariant [nav_ok] (browsing, empty query, both
    cursors within their pages and both offsets within what the pages leave
    over) with no resize pending: Left moves the song position one step
    towards the first song; Right, when at least one row is drawn, one step
    towards the last song and no further.  Neither moves the artist position.
    The invariant holds in the initial state and is kept by the directional
    keys ([nav_ok_main_loop]). *)
Theorem song_keys_step (o : Obs) (s : State) :
  nav_ok library s →
  (new_height o, new_width o) = (height (layout s), width (layout s)) →
  ∃ songs,
    songs_under_cursor library s = Some songs
    ∧ (key o = KEY_RIGHT → 1 <= max_rows (layout s) →
       ∃ s' cmds,
         tick library o s = Continue s' cmds
         ∧ song_position s' = Z.min (song_position s + 1) (len songs - 1)
         ∧ artist_position s' = artist_position s)
    ∧ (key o = KEY_LEFT →
       ∃ s' cmds,
         tick library o s = Continue s' cmds
         ∧ song_position s' = Z.max (song_position s - 1) 0
         ∧ artist_position s' = artist_position s).
Proof.
  intros Hn Hsame.
  pose proof Hn as (Hok & Hs & Hq & Hwa & songs & Hsongs & Hws).
  exists songs. split; [done|]. split.
  - intros Hk Hrows.
    destruct (draw_lists_page library s Hn Hrows)
      as (d & artist & songs' & song & Hd & _ & _ & _ & _ & _ & Hsongs'
          & Hall & _).
    rewrite Hsongs in Hsongs'. injection Hsongs' as <-.
    unfold tick. cbv zeta. rewrite (handle_resize_same o s Hsame), Hd, Hs.
    unfold handle_normal_key. rewrite Hq, Hk, Hall. simpl.
    pose proof (move_forward_position _ _ _ _ Hws) as Hp.
    destruct (move_forward _ _ _ _). simpl.
    eexists _, _. split; [done|]. by split.
  - intros Hk.
    destruct (draw_lists_ok library s Hok) as [d Hd].
    unfold tick. cbv zeta. rewrite (handle_resize_same o s Hsame), Hd, Hs.
    unfold handle_normal_key. rewrite Hq, Hk. simpl.
    unfold window_ok in Hws.
    pose proof (move_back_position (selected_song (cursors s))
                  (song_offset (cursors s))) as Hp.
    destruct (move_back _ _). simpl.
    eexists _, _. split; [done|]. split; [apply Hp; lia | done].
Qed.
End NavigationSteps.

(** ** Every song can be reached and played *)

Lemma now_playing_idle (o : Obs) (s : State) :
  curr_song s = None → now_playing o s = [].
Proof. unfold now_playing. by intros ->. Qed.

Lemma main_loop_app (library : TrackIndex) (obs1 obs2 : list Obs)
    (s s1 : State) (c1 : list PlayerCmd) :
  main_loop library obs1 s = (c1, Running s1) →
  main_loop library (obs1 ++ obs2) s
  = (c1 ++ (main_loop library obs2 s1).1, (main_loop library obs2 s1).2).
Proof.
  revert s c1. induction obs1 as [|o obs1 IH]; intros s c1 H; simpl in *.
  - injection H as <- <-. by destruct (main_loop library obs2 s).
  - destruct (tick library o s) as [s' c|s' c|c]; [|done|done].
    destruct (main_loop library obs1 s') as [c' r'] eqn:Hrun.
    simpl in H. injection H as <- ->.
    rewrite (IH s' c' Hrun). simpl. by rewrite app_assoc.
Qed.

Section PlayAnySong.
Variable library : TrackIndex.
Hypothesis library_nonempty : library ≠ [].
Hypothesis every_artist_has_songs :
  ∀ artist albums, (artist, albums) ∈ library → flatten_album albums ≠ [].
Variables h w : Z.

(** The result of an iteration with Right, at least one row drawn and no
    resize pending. *)
Lemma right_key_tick (o : Obs) (s : State) (songs : list string) :
  nav_ok library s → 1 <= max_rows (layout s) →
  (new_height o, new_width o) = (height (layout s), width (layout s)) →
  songs_under_cursor library s = Some songs → key o = KEY_RIGHT →
  tick library o s
  = Continue
      (with_cursors
         {| selected_artist := selected_artist (cursors s);
            artist_offset := artist_offset (cursors s);
            selected_song :=
              (move_forward (max_rows (layout s)) (len songs)
                 (selected_song (cursors s)) (song_offset (cursors s))).1;
            song_offset :=
              (move_forward (max_rows (layout s)) (len songs)
                 (selected_song (cursors s)) (song_offset (cursors s))).2 |}
         s)
      (now_playing o s).
Proof.
  intros Hn Hrows Hsame Hsongs Hk.
  destruct (draw_lists_page library s Hn Hrows)
    as (d & artist & songs' & song & Hd & _ & _ & _ & _ & _ & Hsongs'
        & Hall & _).
  rewrite Hsongs in Hsongs'. injection Hsongs' as <-.
  destruct Hn as (_ & Hs & Hq & _).
  unfold tick. cbv zeta. rewrite (handle_resize_same o s Hsame), Hd, Hs.
  unfold handle_normal_key. rewrite Hq, Hk, Hall. simpl.
  destruct (move_forward _ _ _ _). simpl. by rewrite app_nil_r.
Qed.

Lemma downs_run (k : nat) (s : State) :
  nav_ok library s →
  (height (layout s), width (layout s)) = (h, w) → curr_song s = None →
  song_position s = 0 →
  ∃ s',
    main_loop library (replicate k (press_in h w KEY_DOWN)) s
    = ([], Running s')
    ∧ nav_ok library s' ∧ layout s' = layout s ∧ curr_song s' = None
    ∧ artist_position s'
      = Z.min (artist_position s + Z.of_nat k) (len (dict_keys library) - 1)
    ∧ song_position s' = 0.
Proof.
  revert s. induction k as [|k IH]; intros s Hn Hdim Hc Hsp.
  - exists s. simpl. split_and!; try done.
    destruct Hn as (_ & _ & _ & Hwa & _). apply window_ok_sum in Hwa.
    unfold artist_position. lia.
  - pose proof Hn as (Hok & Hs & Hq & Hwa & _).
    destruct (artist_key_tick library (press_in h w KEY_DOWN) s Hn)
      as [_ Hdown]; [done|].
    specialize (Hdown eq_refl). rewrite now_playing_idle in Hdown by done.
    set (s1 := with_cursors _ s) in Hdown.
    assert (nav_ok library s1) as Hn1.
    { apply nav_ok_song_top; try done. by apply window_ok_forward. }
    destruct (IH s1 Hn1) as (s' & Hrun & Hn' & Hl' & Hc' & Hp' & Hsp');
      [done..|].
    exists s'. simpl. rewrite Hdown, Hrun. split_and!; try done.
    rewrite Hp'. unfold s1, artist_position. simpl.
    rewrite (move_forward_position _ _ _ _ Hwa).
    apply window_ok_sum in Hwa. lia.
Qed.

Lemma rights_run (k : nat) (s : State) (songs : list string) :
  nav_ok library s → 1 <= max_rows (layout s) →
  (height (layout s), width (layout s)) = (h, w) → curr_song s = None →
  songs_under_cursor library s = Some songs →
  ∃ s',
    main_loop library (replicate k (press_in h w KEY_RIGHT)) s
    = ([], Running s')
    ∧ nav_ok library s' ∧ layout s' = layout s ∧ curr_song s' = None
    ∧ artist_position s' = artist_position s
    ∧ songs_under_cursor library s' = Some songs
    ∧ song_position s'
      = Z.min (song_position s + Z.of_nat k) (len songs - 1).
Proof.
  revert s. induction k as [|k IH]; intros s Hn Hrows Hdim Hc Hsongs.
  - exists s. simpl. split_and!; try done.
    destruct Hn as (_ & _ & _ & _ & songs' & Hsongs' & Hws).
    rewrite Hsongs in Hsongs'. injection Hsongs' as <-.
    apply window_ok_sum in Hws. unfold song_position. lia.
  - pose proof (right_key_tick (press_in h w KEY_RIGHT) s songs Hn Hrows)
      as Hright.
    rewrite now_playing_idle in Hright by done.
    specialize (Hright (eq_sym Hdim) Hsongs eq_refl).
    set (s1 := with_cursors _ s) in Hright.
    destruct (nav_ok_tick library library_nonempty every_artist_has_songs
                (press_in h w KEY_RIGHT) s eq_refl Hn)
      as (s1' & c1' & Ht & Hn1).
    rewrite Hright in Ht. injection Ht as <- _.
    pose proof Hn as (_ & _ & _ & _ & songs' & Hsongs' & Hws).
    rewrite Hsongs in Hsongs'. injection Hsongs' as <-.
    destruct (IH s1 Hn1) as (s' & Hrun & Hn' & Hl' & Hc' & Hp' & Hso' & Hsp');
      [done..|].
    exists s'. simpl. rewrite Hright, Hrun. split_and!; try done.
    rewrite Hsp'. unfold s1, song_position. simpl.
    rewrite (move_forward_position _ _ _ _ Hws).
    apply window_ok_sum in Hws. lia.
Qed.
End PlayAnySong.

Lemma songs_under_cursor_at (library : TrackIndex) (s : State) (i : nat)
    (artist : string) (albums : Albums) :
  dict_wf library → search_query s = "" →
  artist_position s = Z.of_nat i → library !! i = Some (artist, albums) →
  py_index (dict_keys library) (artist_position s) = Some artist
  ∧ songs_under_cursor library s = Some (flatten_album albums).
Proof.
  intros Hwf Hq Hp Hi.
  assert (py_index (dict_keys library) (artist_position s) = Some artist)
    as Ha.
  { rewrite py_index_nonneg, Hp, Nat2Z.id by lia.
    unfold dict_keys. by rewrite list_lookup_fmap, Hi. }
  split; [done|].
  unfold songs_under_cursor, current_artists, current_library.
  rewrite Hq. cbn [str_truthy]. unfold artist_position in Ha. rewrite Ha.
  cbn [mbind option_bind].
  rewrite (dict_get_of_elem library artist albums);
    [done | done | by eapply list_elem_of_lookup_2].
Qed.

(** Every song of the library can be reached from the keyboard, as far as
    the loop's handling of its keys goes (the drawing of each iteration is
    taken to succeed, which the terminal's width and the lengths of the
    names decide and the model leaves out).  On a well-formed index in which
    every artist has a song, when the session reads, in a terminal of at
    least 13 lines that is not resized, Down [i] times, Right [j] times and
    Enter, the loop has the player load and play song [j] of artist [i], and
    records that song and that artist as current.  The only other command
    it has sent is the initial volume. *)
Theorem every_song_can_be_played (library : TrackIndex) (h w : Z)
    (i j : nat) (artist : string) (albums : Albums) (song : string) :
  dict_wf library →
  (∀ artist albums, (artist, albums) ∈ library → flatten_album albums ≠ []) →
  13 <= h →
  library !! i = Some (artist, albums) →
  flatten_album albums !! j = Some song →
  ∃ s,
    main_ui library h w
      (replicate i (press_in h w KEY_DOWN)
       ++ replicate j (press_in h w KEY_RIGHT) ++ [press_in h w 10])
    = Some ([AudioSetVolume 50; SetMedia song; PlayerPlay], Running s)
    ∧ curr_song s = Some song ∧ curr_artist s = Some artist
    ∧ playing s = true
    ∧ artist_position s = Z.of_nat i ∧ song_position s = Z.of_nat j.
Proof.
  intros Hwf Hsongs Hh Hi Hj.
  assert (library ≠ []) as Hne by (by intros ->).
  assert (Z.of_nat i < len (dict_keys library)) as Hilt.
  { apply lookup_lt_Some in Hi. unfold len, dict_keys.
    rewrite length_fmap. lia. }
  assert (Z.of_nat j < len (flatten_album albums)) as Hjlt.
  { apply lookup_lt_Some in Hj. unfold len. lia. }
  destruct (downs_run library Hsongs h w i (init_state library h w))
    as (s1 & Hrun1 & Hn1 & Hl1 & Hc1 & Hp1 & Hsp1);
    [by apply nav_ok_init | done | done | done |].
  assert (artist_position s1 = Z.of_nat i) as Hp1'.
  { rewrite Hp1. unfold artist_position. simpl. lia. }
  pose proof Hn1 as (_ & _ & Hq1 & _).
  destruct (songs_under_cursor_at library s1 i artist albums)
    as [_ Hsu1]; [done..|].
  destruct (rights_run library Hne Hsongs h w j s1 (flatten_album albums))
    as (s2 & Hrun2 & Hn2 & Hl2 & Hc2 & Hp2 & Hsu2 & Hsp2);
    [done | rewrite Hl1; simpl; lia | by rewrite Hl1 | done | done |].
  assert (song_position s2 = Z.of_nat j) as Hsp2' by lia.
  destruct (enter_key_tick library (press_in h w 10) s2)
    as (artist' & songs' & song' & Ha' & Hsu' & Hso' & Ht);
    [done | rewrite Hl2, Hl1; simpl; lia | by rewrite Hl2, Hl1 | done |].
  pose proof Hn2 as (_ & _ & Hq2 & _).
  destruct (songs_under_cursor_at library s2 i artist albums)
    as [Ha2 _]; [done | done | by rewrite Hp2 | done |].
  rewrite Ha2 in Ha'. injection Ha' as <-.
  rewrite Hsu2 in Hsu'. injection Hsu' as <-.
  rewrite py_index_nonneg, Hsp2', Nat2Z.id, Hj in Hso' by lia.
  injection Hso' as <-.
  rewrite now_playing_idle in Ht by done.
  exists (with_now_playing song artist s2).
  split; [|split_and!; try done; by rewrite <-Hp2 in Hp1'].
  unfold main_ui. destruct library; [done|]. cbn [list_truthy].
  rewrite (main_loop_app _ _ _ _ _ _ Hrun1).
  rewrite (main_loop_app _ _ _ _ _ _ Hrun2).
  cbn [main_loop]. rewrite Ht. done.
Qed.

Lemma every_song_can_be_played_witness :
  ∃ s,
    main_ui sample_library 24 80
      (replicate 0 (press_in 24 80 KEY_DOWN)
       ++ replicate 1 (press_in 24 80 KEY_RIGHT) ++ [press_in 24 80 10])
    = Some ([AudioSetVolume 50; SetMedia "/music/Abba/Arrival/b.mp3";
             PlayerPlay], Running s)
    ∧ curr_song s = Some "/music/Abba/Arrival/b.mp3"
    ∧ curr_artist s = Some "Abba"
    ∧ playing s = true
    ∧ artist_position s = Z.of_nat 0 ∧ song_position s = Z.of_nat 1.
Proof.
  apply (every_song_can_be_played sample_library 24 80 0 1 "Abba"
           abba_albums).
  - exact sample_library_wf.
  - intros artist albums Hin. unfold sample_library in Hin.
    repeat (apply elem_of_cons in Hin as [[= -> ->]|Hin];
            [vm_compute; discriminate|]).
    by apply elem_of_nil in Hin.
  - lia.
  - reflexivity.
  - reflexivity.
Defined.

Lemma sample_every_artist_has_songs (artist : string) (albums : Albums) :
  (artist, albums) ∈ sample_library → flatten_album albums ≠ [].
Proof.
  intros Hin. unfold sample_library in Hin.
  repeat (apply elem_of_cons in Hin as [[= -> ->]|Hin];
          [vm_compute; discriminate|]).
  by apply elem_of_nil in Hin.
Qed.

Lemma artist_keys_step_witness :
  ∃ s' cmds,
    tick sample_library (press KEY_DOWN) sample_state = Continue s' cmds
    ∧ nav_ok sample_library s'
    ∧ artist_position s'
      = Z.min (artist_position sample_state + 1)
          (len (dict_keys sample_library) - 1)
    ∧ song_position s' = 0.
Proof.
  destruct (artist_keys_step sample_library sample_every_artist_has_songs
              (press KEY_DOWN) sample_state) as [Hdown _].
  - apply (sample_nav_ok top). by left.
  - reflexivity.
  - exact (Hdown eq_refl).
Defined.

Lemma song_keys_step_witness :
  (∃ s' cmds,
     tick sample_library (press KEY_RIGHT) sample_state = Continue s' cmds
     ∧ song_position s' = 1
     ∧ artist_position s' = artist_position sample_state)
  ∧ (∃ s' cmds,
       tick sample_library (press KEY_LEFT)
         (with_cursors {| selected_artist := 0; artist_offset := 0;
                          selected_song := 1; song_offset := 0 |}
            sample_state)
       = Continue s' cmds
       ∧ song_position s' = 0
       ∧ artist_position s' = 0).
Proof.
  split.
  - destruct (song_keys_step sample_library (press KEY_RIGHT) sample_state)
      as (songs & Hsongs & Hright & _).
    + apply (sample_nav_ok top). by left.
    + reflexivity.
    + vm_compute in Hsongs. injection Hsongs as <-.
      apply Hright; [reflexivity | vm_compute; discriminate].
  - destruct (song_keys_step sample_library (press KEY_LEFT)
                (with_cursors {| selected_artist := 0; artist_offset := 0;
                                 selected_song := 1; song_offset := 0 |}
                   sample_state))
      as (songs & _ & _ & Hleft).
    + apply sample_nav_ok. by right.
    + reflexivity.
    + exact (Hleft eq_refl).
Defined.

(** ** A session never raises *)

(** On a well-formed index no subscript of the loop fails, whatever the
    keys, the terminal sizes and the player's answers: a session is still
    looping or has quit, never ended by a [KeyError] or an [IndexError], and
    in the state it is in the cursors and offsets are not negative and the
    filtered artist list is the key list of the filtered index. *)
Theorem session_never_raises (library : TrackIndex) (h w : Z)
    (obs : list Obs) (r : list PlayerCmd * Outcome) :
  dict_wf library → main_ui library h w obs = Some r →
  ∃ s, (r.2 = Running s ∨ r.2 = Quit s) ∧ session_ok s.
Proof.
  intros Hwf. unfold main_ui. destruct (list_truthy library); [|done].
  intros [= <-]. cbn [snd].
  pose proof (main_loop_ok library obs (init_state library h w) Hwf
                (session_ok_init library h w)) as Hok.
  destruct (main_loop library obs (init_state library h w)).2 as [s|s|];
    [exists s; auto..|done].
Qed.

Lemma session_never_raises_witness :
  dict_wf sample_library
  ∧ ∃ s,
      ((AudioSetVolume 50
          :: (main_loop sample_library
                [press (ord "/"); press (ord "z"); press 10; press KEY_DOWN;
                 press 10; press KEY_RIGHT]
                (init_state sample_library 24 80)).1,
        (main_loop sample_library
           [press (ord "/"); press (ord "z"); press 10; press KEY_DOWN;
            press 10; press KEY_RIGHT]
           (init_state sample_library 24 80)).2).2 = Running s
       ∨ (AudioSetVolume 50
            :: (main_loop sample_library
                  [press (ord "/"); press (ord "z"); press 10; press KEY_DOWN;
                   press 10; press KEY_RIGHT]
                  (init_state sample_library 24 80)).1,
          (main_loop sample_library
             [press (ord "/"); press (ord "z"); press 10; press KEY_DOWN;
              press 10; press KEY_RIGHT]
             (init_state sample_library 24 80)).2).2 = Quit s)
      ∧ session_ok s.
Proof.
  split; [exact sample_library_wf|].
  apply (session_never_raises sample_library 24 80
           [press (ord "/"); press (ord "z"); press 10; press KEY_DOWN;
            press 10; press KEY_RIGHT]).
  - exact sample_library_wf.
  - reflexivity.
Defined.

(** ** A filter that matches nothing *)

Lemma draw_lists_empty (library : TrackIndex) (s : State) :
  str_truthy (search_query s) = true → filtered_artists s = [] →
  draw_lists library s
  = Some {| visible_artists := []; all_songs_by_artist := [];
            visible_songs := [] |}.
Proof.
  intros Hq Hfa. unfold draw_lists, current_artists. cbv zeta.
  rewrite Hq, Hfa.
  assert (∀ a b : Z, @py_slice string [] a b = []) as Hnil.
  { intros a b. unfold py_slice. by rewrite drop_nil, take_nil. }
  by rewrite Hnil.
Qed.

(** With a filter in force whose artist list is empty (a search that
    matched nothing), both cursors at the top and no resize pending, the
    four directional keys and Enter do nothing: the state is unchanged and
    the player gets no command from the key. *)
Theorem empty_view_keys_do_nothing (library : TrackIndex) (o : Obs)
    (s : State) :
  search_active s = false → search_query s ≠ "" →
  filtered_artists s = [] → cursors s = top →
  (new_height o, new_width o) = (height (layout s), width (layout s)) →
  is_directional (key o) = true ∨ is_enter (key o) = true →
  tick library o s = Continue s (now_playing o s).
Proof.
  intros Hs Hq Hfa Hc Hsame Hk.
  apply str_truthy_true in Hq.
  assert (with_cursors {| selected_artist := 0; artist_offset := 0;
                          selected_song := 0; song_offset := 0 |} s = s)
    as Hid.
  { destruct s. simpl in *. by rewrite Hc. }
  assert (key o = 259 ∨ key o = 258 ∨ key o = 260 ∨ key o = 261
          ∨ key o = 343 ∨ key o = 10 ∨ key o = 13) as Hkey.
  { unfold is_directional, is_enter, KEY_UP, KEY_DOWN, KEY_LEFT, KEY_RIGHT,
      KEY_ENTER in Hk. lia. }
  unfold tick. cbv zeta.
  rewrite (handle_resize_same o s Hsame), draw_lists_empty, Hs by done.
  unfold handle_normal_key, current_artists.
  destruct Hkey as [Hkey|[Hkey|[Hkey|[Hkey|[Hkey|[Hkey|Hkey]]]]]];
    rewrite Hkey; simpl; rewrite ?Hq, ?Hfa, ?Hc; simpl;
    rewrite ?move_forward_empty by lia; simpl;
    by rewrite ?Hid, app_nil_r.
Qed.

Lemma empty_view_keys_do_nothing_witness :
  tick sample_library (press KEY_DOWN)
    (with_filtered ([], []) (with_search_query "zz" sample_state))
  = Continue (with_filtered ([], []) (with_search_query "zz" sample_state))
      [].
Proof.
  rewrite (empty_view_keys_do_nothing sample_library (press KEY_DOWN)
             (with_filtered ([], []) (with_search_query "zz" sample_state)));
    try reflexivity.
  - discriminate.
  - left. reflexivity.
Defined.

(** A search that matches nothing, confirmed, gives such a state. *)
Example search_without_match :
  main_ui sample_library 24 80
    [press (ord "/"); press (ord "z"); press (ord "z"); press 10;
     press KEY_DOWN; press 10]
  = Some ([AudioSetVolume 50],
          Running (with_filtered ([], [])
                     (with_search_query "zz" sample_state))).
Proof. vm_compute. reflexivity. Qed.

(** ** The layout *)

(** For every terminal size the two windows stand side by side without
    overlap: the artist window starts at the left padding, the song window
    starts one column after the artist window ends and ends at the right
    padding, it is wider than the artist window by one or two columns, both
    have the same lines, which end seven lines above the bottom of the
    terminal, and the page holds two rows less than the windows have lines. *)
Theorem layout_tiles_the_width (h w : Z) :
  begin_x (artist_win (compute_layout h w)) = PADDING
  ∧ begin_x (songs_win (compute_layout h w))
    = begin_x (artist_win (compute_layout h w))
      + ncols (artist_win (compute_layout h w)) + 1
  ∧ begin_x (songs_win (compute_layout h w))
    + ncols (songs_win (compute_layout h w)) = w - PADDING
  ∧ 1 <= ncols (songs_win (compute_layout h w))
         - ncols (artist_win (compute_layout h w)) <= 2
  ∧ nlines (artist_win (compute_layout h w))
    = nlines (songs_win (compute_layout h w))
  ∧ begin_y (artist_win (compute_layout h w)) = 3
  ∧ begin_y (songs_win (compute_layout h w)) = 3
  ∧ begin_y (artist_win (compute_layout h w))
    + nlines (artist_win (compute_layout h w)) = h - 7
  ∧ max_rows (compute_layout h w)
    = nlines (artist_win (compute_layout h w)) - 2.
Proof.
  unfold compute_layout, PADDING.
  cbn [begin_x begin_y ncols nlines artist_win songs_win max_rows].
  pose proof (Z.div_mod (w - 2 * 2) 2 ltac:(lia)) as Hd.
  pose proof (Z.mod_pos_bound (w - 2 * 2) 2 ltac:(lia)) as Hm.
  lia.
Qed.

Lemma layout_search_key (library : TrackIndex) (o : Obs) (s : State) :
  layout (handle_search_key library o s) = layout s.
Proof. unfold handle_search_key. by repeat case_match. Qed.

Lemma layout_normal_key (library : TrackIndex) (o : Obs) (d : Drawn)
    (s : State) :
  match handle_normal_key library o d s with
  | Continue s' _ | Break s' _ => layout s' = layout s
  | Raise _ => True
  end.
Proof.
  unfold handle_normal_key.
  repeat case_match; simplify_eq; simpl; done.
Qed.

Lemma layout_tick (library : TrackIndex) (o : Obs) (s : State) :
  layout s = compute_layout (height (layout s)) (width (layout s)) →
  match tick library o s with
  | Continue s' _ | Break s' _ =>
      layout s' = compute_layout (new_height o) (new_width o)
  | Raise _ => True
  end.
Proof.
  intros Hl.
  assert (layout (handle_resize o s)
          = compute_layout (new_height o) (new_width o)) as Hr.
  { unfold handle_resize. case_bool_decide as Hd; [done|].
    destruct (decide ((new_height o, new_width o)
                      = (height (layout s), width (layout s))))
      as [[= -> ->]|]; done. }
  unfold tick. cbv zeta.
  destruct (draw_lists library (handle_resize o s)) as [d|]; [|done].
  destruct (search_active (handle_resize o s)).
  - by rewrite layout_search_key.
  - pose proof (layout_normal_key library o d (handle_resize o s)) as Hk.
    destruct (handle_normal_key library o d (handle_resize o s)); simpl;
      [by rewrite Hk..|done].
Qed.

Lemma layout_main_loop (library : TrackIndex) (obs : list Obs) (s : State) :
  layout s = compute_layout (height (layout s)) (width (layout s)) →
  from_option
    (λ s', layout s' = compute_layout (height (layout s')) (width (layout s')))
    True (last_state (main_loop library obs s))
  ∧ from_option
      (λ s', (height (layout s'), width (layout s'))
             = from_option (λ o, (new_height o, new_width o))
                 (height (layout s), width (layout s)) (last obs))
      True (running_state (main_loop library obs s)).
Proof.
  revert s. induction obs as [|o obs IH]; intros s Hl; [done|].
  pose proof (layout_tick library o s Hl) as Ht. simpl.
  destruct (tick library o s) as [s' c|s' c|c]; [| |done].
  - assert (layout s'
            = compute_layout (height (layout s')) (width (layout s')))
      as Hl' by (by rewrite Ht).
    destruct (IH s' Hl') as [IH1 IH2].
    unfold last_state, running_state in *. simpl.
    destruct (main_loop library obs s') as [c' out]. simpl in *.
    split; [done|]. destruct out as [s2|s2|]; [|done|done]. simpl in *.
    rewrite IH2. destruct obs as [|o2 obs]; [by rewrite Ht|].
    rewrite last_cons_cons.
    destruct (last (o2 :: obs)) eqn:Hlast; [done|].
    by apply last_None in Hlast.
  - unfold last_state, running_state. simpl. split; [by rewrite Ht | done].
Qed.

(** The layout never goes stale: in every state a session is in or quits
    from, the layout is the one computed from the recorded terminal size,
    and while the session is looping that size is the one read in the latest
    iteration. *)
Theorem layout_follows_the_terminal (library : TrackIndex) (h w : Z)
    (obs : list Obs) (r : list PlayerCmd * Outcome) :
  main_ui library h w obs = Some r →
  (∀ s, last_state r = Some s →
        layout s = compute_layout (height (layout s)) (width (layout s)))
  ∧ (∀ s o, running_state r = Some s → last obs = Some o →
            layout s = compute_layout (new_height o) (new_width o)).
Proof.
  unfold main_ui. destruct (list_truthy library); [|done].
  intros [= <-].
  destruct (layout_main_loop library obs (init_state library h w) eq_refl)
    as [H1 H2].
  unfold last_state, running_state in *. simpl in *.
  destruct (main_loop library obs (init_state library h w)) as [c out].
  simpl in *. split.
  - intros s Hs. by rewrite Hs in H1.
  - intros s o Hs Ho. destruct out as [s2|s2|]; simplify_eq.
    rewrite Ho in H2. simpl in H2. rewrite H1.
    by injection H2 as -> ->.
Qed.

Lemma layout_follows_the_terminal_witness :
  ∃ s,
    running_state
      (AudioSetVolume 50
         :: (main_loop sample_library [press KEY_DOWN; press_small KEY_DOWN]
               (init_state sample_library 24 80)).1,
       (main_loop sample_library [press KEY_DOWN; press_small KEY_DOWN]
          (init_state sample_library 24 80)).2) = Some s
    ∧ layout s = compute_layout 12 80.
Proof.
  destruct (layout_follows_the_terminal sample_library 24 80
              [press KEY_DOWN; press_small KEY_DOWN] _ eq_refl) as [_ H].
  eexists. split; [vm_compute; reflexivity|].
  apply (H _ (press_small KEY_DOWN)); reflexivity.
Defined.

(** ** Seeking with a position inside the track *)

(** While browsing with a current song, when the player reports a position
    between zero and its length, each seek key sends the position moved by
    its step ([,] -5 s, [.] +5 s, [<] -10 s, [>] +10 s) and clamped to
    [[0, length]], and changes no session field.  Without a current song the
    seek keys send nothing. *)
Theorem seek_is_clamped_inside_the_track (library : TrackIndex) (o : Obs)
    (s : State) (delta : Z) :
  session_ok s → search_active s = false →
  (key o = ord "," ∧ delta = -5000) ∨ (key o = ord "." ∧ delta = 5000)
  ∨ (key o = ord "<" ∧ delta = -10000) ∨ (key o = ord ">" ∧ delta = 10000) →
  (opt_truthy (curr_song s) = true →
   0 <= player_time o <= player_length o →
   tick library o s
   = Continue (handle_resize o s)
       (now_playing o (handle_resize o s)
        ++ [SetTime (clamp 0 (player_length o) (player_time o + delta))]))
  ∧ (opt_truthy (curr_song s) = false →
     tick library o s
     = Continue (handle_resize o s) (now_playing o (handle_resize o s))).
Proof.
  intros Hok Hs Hk. split.
  - intros Hc Ht. apply seek_key; [done..|].
    unfold clamp.
    destruct Hk as [[-> ->]|[[-> ->]|[[-> ->]|[-> ->]]]];
      [left | right; right; left | right; left | right; right; right];
      (split; [done | lia]).
  - intros Hc.
    destruct (tick_browsing library o s Hok Hs) as (d & _ & ->).
    destruct (handle_resize_frame o s) as (_ & _ & _ & _ & Hr & _).
    cbv zeta in Hr. unfold handle_normal_key.
    destruct Hk as [[-> ->]|[[-> ->]|[[-> ->]|[-> ->]]]];
      simpl; rewrite Hr, Hc; simpl; by rewrite app_nil_r.
Qed.

Lemma seek_is_clamped_inside_the_track_witness :
  (session_ok playing_state ∧ search_active playing_state = false
   ∧ opt_truthy (curr_song playing_state) = true
   ∧ 0 <= player_time (press_at (ord ">") 175000 180000)
       <= player_length (press_at (ord ">") 175000 180000))
  ∧ tick sample_library (press_at (ord ">") 175000 180000) playing_state
    = Continue playing_state [SetTime 180000].
Proof.
  assert (session_ok playing_state) as Hok.
  { unfold session_ok. vm_compute. repeat split; discriminate. }
  split.
  - split; [exact Hok|]. split; [reflexivity|]. split; [reflexivity|].
    simpl. lia.
  - destruct (seek_is_clamped_inside_the_track sample_library
                (press_at (ord ">") 175000 180000) playing_state 10000
                Hok eq_refl) as [Hseek _].
    + right. right. right. split; reflexivity.
    + rewrite (Hseek eq_refl); [vm_compute; reflexivity | simpl; lia].
Defined.

(** ** Enter in any browsing state, and cursors left behind by a filter *)

Lemma py_slice_nonempty {A} (l : list A) (start stop : Z) :
  0 <= start → 0 < len (py_slice l start stop) → start < len l.
Proof.
  unfold py_slice, slice_bound, len. intros Hs Hlen.
  destruct (Z.ltb_spec start 0); [lia|].
  rewrite length_take, length_drop in Hlen. lia.
Qed.

(** The Enter branch of the key handler (lines 379-386). *)
Lemma handle_normal_key_enter (library : TrackIndex) (o : Obs) (d : Drawn)
    (s : State) :
  is_enter (key o) = true →
  handle_normal_key library o d s
  = if list_truthy (visible_songs d)
       && (selected_song (cursors s) <? len (visible_songs d))
    then
      match py_index (visible_songs d) (selected_song (cursors s)) with
      | None => Raise []
      | Some song =>
          match
            (if list_truthy (visible_artists d)
                && (selected_artist (cursors s) <? len (visible_artists d))
             then py_index (visible_artists d) (selected_artist (cursors s))
             else Some "Unknown Artist")
          with
          | None => Raise []
          | Some artist =>
              Continue (with_now_playing song artist s)
                [SetMedia song; PlayerPlay]
          end
      end
    else Continue s [].
Proof.
  intros Hk. unfold handle_normal_key.
  unfold is_enter, KEY_ENTER in Hk.
  change (ord "/") with 47. change (ord "c") with 99.
  unfold KEY_UP, KEY_DOWN, KEY_LEFT, KEY_RIGHT.
  destruct (key o =? 47) eqn:?; [lia|].
  destruct (key o =? 99) eqn:?; [lia|]. cbn [andb].
  destruct (key o =? 259) eqn:?; [lia|].
  destruct (key o =? 258) eqn:?; [lia|].
  destruct (key o =? 260) eqn:?; [lia|].
  destruct (key o =? 261) eqn:?; [lia|].
  unfold is_enter, KEY_ENTER. by rewrite Hk.
Qed.

(** What Enter does in a browsing state the loop can be in, with or
    without a filter and wherever the cursors are, given the lists [d] drawn
    in that iteration. *)
Lemma enter_key_general (library : TrackIndex) (o : Obs) (s : State)
    (d : Drawn) :
  session_ok s → search_active s = false →
  (new_height o, new_width o) = (height (layout s), width (layout s)) →
  is_enter (key o) = true →
  draw_lists library s = Some d →
  (∀ song,
     visible_songs d !! Z.to_nat (selected_song (cursors s)) = Some song →
     ∃ artist,
       py_index (current_artists library s) (artist_position s) = Some artist
       ∧ songs_under_cursor library s = Some (all_songs_by_artist d)
       ∧ py_index (all_songs_by_artist d) (song_position s) = Some song
       ∧ tick library o s
         = Continue (with_now_playing song artist s)
             (now_playing o s ++ [SetMedia song; PlayerPlay]))
  ∧ (visible_songs d !! Z.to_nat (selected_song (cursors s)) = None →
     tick library o s = Continue s (now_playing o s)).
Proof.
  intros (Ha & Hao & Hss & Hso & Hv) Hs Hsame Hk Hd.
  assert (tick library o s
          = after (now_playing o s) (handle_normal_key library o d s)) as Ht.
  { unfold tick. cbv zeta. by rewrite (handle_resize_same o s Hsame), Hd, Hs. }
  rewrite Ht, handle_normal_key_enter by done. clear Ht.
  split.
  - intros song Hsong.
    pose proof (lookup_lt_Some _ _ _ Hsong) as Hlt.
    assert (list_truthy (visible_songs d)
            && (selected_song (cursors s) <? len (visible_songs d)) = true)
      as Hcs.
    { apply andb_true_iff. split; [apply list_truthy_len|];
        unfold len; lia. }
    rewrite Hcs, (py_index_nonneg (visible_songs d)), Hsong by lia.
    unfold draw_lists in Hd. cbv zeta in Hd.
    set (va := py_slice (current_artists library s)
                 (artist_offset (cursors s))
                 (artist_offset (cursors s) + max_rows (layout s))) in *.
    destruct (list_truthy va && (selected_artist (cursors s) <? len va))
      eqn:Hca; [|by injection Hd as <-].
    destruct (py_index va (selected_artist (cursors s))) as [artist|] eqn:Hart;
      [|done].
    cbn [mbind option_bind] in Hd.
    destruct (dict_get artist (current_library library s)) as [albums|]
      eqn:Hal; [|done].
    cbn [mbind option_bind] in Hd. injection Hd as <-.
    cbn [visible_artists all_songs_by_artist visible_songs] in *.
    rewrite Hca, Hart.
    apply andb_true_iff in Hca as [Hva Hsel]. apply list_truthy_len in Hva.
    assert (artist_offset (cursors s) < len (current_artists library s))
      as Hoff by (by apply (py_slice_nonempty _ _ _ Hao Hva)).
    assert (song_offset (cursors s) < len (flatten_album albums)) as Hoffs.
    { apply (py_slice_nonempty _ _
               (song_offset (cursors s) + max_rows (layout s)) Hso).
      unfold len. lia. }
    assert (py_index (current_artists library s) (artist_position s)
            = Some artist) as Hpos.
    { unfold va in Hart. rewrite py_slice_index in Hart by (fold va; lia).
      done. }
    exists artist. split_and!; [done| | |done].
    + unfold songs_under_cursor. unfold artist_position in Hpos.
      rewrite Hpos. cbn [mbind option_bind]. by rewrite Hal.
    + unfold song_position. rewrite <-py_slice_index
        with (stop := song_offset (cursors s) + max_rows (layout s))
        by (unfold len in *; lia).
      by rewrite py_index_nonneg by lia.
  - intros Hnone. apply lookup_ge_None in Hnone.
    assert (list_truthy (visible_songs d)
            && (selected_song (cursors s) <? len (visible_songs d)) = false)
      as ->.
    { apply andb_false_iff. right. unfold len. lia. }
    simpl. by rewrite app_nil_r.
Qed.

(** While browsing, with or without a filter and wherever the cursors are,
    with no resize pending, Enter acts exactly when the song cursor is on a
    drawn song row, that is when [visible_songs[selected_song]] exists.  It
    then records and plays the song at [selected_song + song_offset] of the
    song list of the artist at [selected_artist + artist_offset] of the
    active artist list, with that artist as the current artist.  When the
    song cursor is on no drawn row, Enter changes nothing and sends
    nothing. *)
Theorem enter_on_a_drawn_song_row (library : TrackIndex) (o : Obs)
    (s : State) (d : Drawn) :
  session_ok s → search_active s = false →
  (new_height o, new_width o) = (height (layout s), width (layout s)) →
  is_enter (key o) = true →
  draw_lists library s = Some d →
  (∀ song,
     visible_songs d !! Z.to_nat (selected_song (cursors s)) = Some song →
     ∃ artist,
       py_index (current_artists library s) (artist_position s) = Some artist
       ∧ songs_under_cursor library s = Some (all_songs_by_artist d)
       ∧ py_index (all_songs_by_artist d) (song_position s) = Some song
       ∧ tick library o s
         = Continue (with_now_playing song artist s)
             (now_playing o s ++ [SetMedia song; PlayerPlay]))
  ∧ (visible_songs d !! Z.to_nat (selected_song (cursors s)) = None →
     tick library o s = Continue s (now_playing o s)).
Proof. apply enter_key_general. Qed.

Lemma enter_on_a_drawn_song_row_witness :
  tick sample_library (press 10)
    (with_cursors {| selected_artist := 0; artist_offset := 0;
                     selected_song := 1; song_offset := 0 |} sample_state)
  = Continue
      (with_now_playing "/music/Abba/Arrival/b.mp3" "Abba"
         (with_cursors {| selected_artist := 0; artist_offset := 0;
                          selected_song := 1; song_offset := 0 |}
            sample_state))
      [SetMedia "/music/Abba/Arrival/b.mp3"; PlayerPlay]
  ∧ tick short_then_long (press 10) stale_state = Continue stale_state [].
Proof.
  split.
  - assert (session_ok
              (with_cursors {| selected_artist := 0; artist_offset := 0;
                               selected_song := 1; song_offset := 0 |}
                 sample_state)) as Hok.
    { unfold session_ok. vm_compute. repeat split; discriminate. }
    assert (∃ d, draw_lists sample_library
                   (with_cursors {| selected_artist := 0; artist_offset := 0;
                                    selected_song := 1; song_offset := 0 |}
                      sample_state) = Some d) as [d Hd]
      by (eexists; vm_compute; reflexivity).
    destruct (enter_on_a_drawn_song_row sample_library (press 10)
                (with_cursors {| selected_artist := 0; artist_offset := 0;
                                 selected_song := 1; song_offset := 0 |}
                   sample_state) d Hok eq_refl eq_refl eq_refl Hd)
      as [Hplay _].
    vm_compute in Hd. injection Hd as <-.
    destruct (Hplay "/music/Abba/Arrival/b.mp3" eq_refl)
      as (artist & Ha & _ & _ & Ht).
    vm_compute in Ha. injection Ha as <-. exact Ht.
  - assert (session_ok stale_state) as Hok.
    { unfold session_ok. vm_compute. repeat split; discriminate. }
    assert (∃ d, draw_lists short_then_long stale_state = Some d) as [d Hd]
      by (eexists; vm_compute; reflexivity).
    destruct (enter_on_a_drawn_song_row short_then_long (press 10)
                stale_state d Hok eq_refl eq_refl eq_refl Hd) as [_ Hnone].
    vm_compute in Hd. injection Hd as <-. exact (Hnone eq_refl).
Defined.

(** Confirming an empty or whitespace-only query changes the mode and
    nothing else: the query, the filtered view, the playback fields and both
    cursors and offsets are as the resize check left them.  In particular
    the cursors are not put back to the top. *)
Theorem blank_confirm_keeps_cursors (library : TrackIndex) (o : Obs)
    (s : State) :
  session_ok s → search_active s = true → is_enter (key o) = true →
  whitespace_only (search_query s) →
  tick library o s
  = Continue (with_search_active false (handle_resize o s))
      (now_playing o (handle_resize o s)).
Proof.
  intros Hok Hs Hk Hw. rewrite tick_searching by done. f_equal.
  destruct (handle_resize_frame o s) as (_ & Hq & _). cbv zeta in Hq.
  unfold handle_search_key.
  assert (is_escape (key o) = false) as ->.
  { unfold is_escape, is_enter, KEY_ENTER in *. lia. }
  rewrite Hk. cbn [with_search_active search_query]. rewrite Hq.
  apply strip_empty in Hw. by rewrite Hw.
Qed.

Lemma blank_confirm_keeps_cursors_witness :
  (session_ok
     (with_search_active true
        (with_cursors {| selected_artist := 1; artist_offset := 0;
                         selected_song := 0; song_offset := 0 |}
           sample_state))
   ∧ whitespace_only
       (search_query
          (with_search_active true
             (with_cursors {| selected_artist := 1; artist_offset := 0;
                              selected_song := 0; song_offset := 0 |}
                sample_state))))
  ∧ tick sample_library (press 10)
      (with_search_active true
         (with_cursors {| selected_artist := 1; artist_offset := 0;
                          selected_song := 0; song_offset := 0 |}
            sample_state))
    = Continue
        (with_cursors {| selected_artist := 1; artist_offset := 0;
                         selected_song := 0; song_offset := 0 |}
           sample_state) [].
Proof.
  assert (session_ok
            (with_search_active true
               (with_cursors {| selected_artist := 1; artist_offset := 0;
                                selected_song := 0; song_offset := 0 |}
                  sample_state))) as Hok.
  { unfold session_ok. vm_compute. repeat split; discriminate. }
  split; [split; [exact Hok | exact I]|].
  rewrite (blank_confirm_keeps_cursors sample_library (press 10) _ Hok
             eq_refl eq_refl I).
  vm_compute. reflexivity.
Defined.

(** A cursor left behind by a filter.  The library is filtered for [b],
    the song cursor is moved to the third song of B, the query is emptied
    with Backspace and confirmed: the whole library is shown again and the
    song cursor, not reset, stands at position 2 under artist A, who has one
    song. *)
Example stale_song_cursor_after_emptied_query :
  main_ui short_then_long 24 80
    [press (ord "/"); press (ord "b"); press 10; press KEY_RIGHT;
     press KEY_RIGHT; press (ord "/"); press 127; press 10]
  = Some ([AudioSetVolume 50], Running stale_state)
  ∧ current_artists short_then_long stale_state = ["A"; "B"]
  ∧ songs_under_cursor short_then_long stale_state = Some ["/m/A/One/a1.mp3"]
  ∧ song_position stale_state = 2.
Proof. vm_compute. repeat split; reflexivity. Qed.

(** In that state the one song row drawn is not highlighted. *)
Example stale_song_cursor_draws_no_highlight :
  (λ d, song_rows d stale_state) <$> draw_lists short_then_long stale_state
  = Some [ {| at_y := 1; at_x := 2; text := "a1.mp3"; attr := A_NORMAL |} ].
Proof. vm_compute. reflexivity. Qed.
